(** * Board image composition of the poker bot ([src/image-helpers.js])

    A shallow embedding of [ImageHelpers]: [createBoardImage], [combineTwo],
    [combineThree], [paste] and [writeFile].  Promises are functions from
    the state of the file system to a settled outcome, the file system
    they leave behind and the list of library calls they made.  Bitmaps
    are lists of pixel rows; the JPEG encoder and decoder, the
    acceptance of a write by the file system and what a refused write
    leaves behind belong to the environment and are the fields of the
    class [Env].

    The file system is keyed by the path as the code spells it.  Two
    spellings of one file ([out.jpeg] and [./out.jpeg], or an asset path
    that climbs back into [./output]) are two keys, so a statement that
    reads a path after another path was written assumes, through
    [apart], that the two name different files.  [apart] compares the
    paths as [path.normalize] would, and holds of no path that leaves
    the working directory; links from one file to another are not
    modelled. *)

From stdpp Require Import gmap strings list fin_maps.

Open Scope string_scope.
Open Scope list_scope.
Open Scope nat_scope.

(** ** Bitmaps, as [lwip] exposes them

    [lwip] is a library the code calls, not part of it: an image has a
    width, a height and pixels; [create] returns a canvas of one colour;
    [paste] replaces the pixels under the pasted image and reports an
    error when that image exceeds the bounds of the base image. *)

(** A pixel.  The images are JPEG files and the canvas is opaque white:
    no pixel is transparent, and a paste replaces what it covers. *)
Record color := RGB { red : N; green : N; blue : N }.

(** The colour named ['white'] in [createImage(..., 'white')]. *)
Definition white : color := RGB 255 255 255.

Record image := Image {
  width : nat;
  height : nat;
  rows : list (list color)
}.

(** [wf_image i]: the pixel buffer has the declared dimensions. *)
Definition wf_image (i : image) : Prop :=
  length (rows i) = height i ∧ Forall (λ r, length r = width i) (rows i).

Definition getPixel (i : image) (x y : nat) : option color :=
  rows i !! y ≫= (.!! x).

(** [lwip.create(width, height, color)]: a canvas filled with one colour. *)
Definition blank (w h : nat) (c : color) : image :=
  Image w h (replicate h (replicate w c)).

(** Whether the pixel [(px, py)] of the base image lies under an image of
    [w] by [h] pixels pasted with its corner at [(x, y)]. *)
Definition covered (x y w h px py : nat) : bool :=
  bool_decide (x ≤ px < x + w ∧ y ≤ py < y + h).

(** The base image with the pixels under the pasted image replaced; the
    base image keeps its dimensions. *)
Definition pasted (x y : nat) (src dest : image) : image :=
  Image (width dest) (height dest)
    (imap (λ py row,
       imap (λ px p,
         if covered x y (width src) (height src) px py
         then default p (getPixel src (px - x) (py - y))
         else p) row) (rows dest)).

(** [dest.paste(x, y, src)]: the pasted image has to fit into the base
    image, otherwise [lwip] reports an error. *)
Definition img_paste (x y : nat) (src dest : image) : option image :=
  if decide (x + width src ≤ width dest ∧ y + height src ≤ height dest)
  then Some (pasted x y src dest)
  else None.

(** The canvas [combineTwo] writes for two opened images: white, as wide
    as both and as high as the first, with the first image at the left
    edge and the second right of it. *)
Definition sideBySide (a b : image) : image :=
  pasted (width a) 0 b
    (pasted 0 0 a (blank (width a + width b) (height a) white)).

(** The reference the specification compares with: each row of the result
    is the row of the first image, then that of the second, then that of
    the third. *)
Fixpoint concatRows3 (ra rb rc : list (list color)) : list (list color) :=
  match ra, rb, rc with
  | r1 :: ra, r2 :: rb, r3 :: rc => (r1 ++ r2 ++ r3) :: concatRows3 ra rb rc
  | _, _, _ => []
  end.

Definition hconcat3 (a b c : image) : image :=
  Image (width a + width b + width c) (height a)
    (concatRows3 (rows a) (rows b) (rows c)).

(** Two images of one height side by side: each row of the first followed
    by the row of the second. *)
Definition hconcat (a b : image) : image :=
  Image (width a + width b) (height a) (zip_with app (rows a) (rows b)).

(** ** Paths

    Which file a path names: its components between [/], without the
    empty ones and the [.] ones.  A path that is absolute, has a [..]
    component or a backslash is not resolved ([None]): where it leads
    depends on the working directory and the platform.  Names are
    compared character by character, as a case-sensitive file system
    does. *)

Definition slash : Ascii.ascii := Ascii.ascii_of_nat 47.
Definition backslash : Ascii.ascii := Ascii.ascii_of_nat 92.

Fixpoint mentions (a : Ascii.ascii) (s : string) : bool :=
  match s with
  | EmptyString => false
  | String c r => Ascii.eqb c a || mentions a r
  end.

Fixpoint split_slash (s : string) : list string :=
  match s with
  | EmptyString => [EmptyString]
  | String c r =>
      if Ascii.eqb c slash then EmptyString :: split_slash r
      else match split_slash r with
           | h :: t => String c h :: t
           | [] => [String c EmptyString]
           end
  end.

Definition absolute (p : string) : bool :=
  match p with
  | EmptyString => false
  | String c _ => Ascii.eqb c slash
  end.

Definition canon (p : string) : option (list string) :=
  if absolute p || mentions backslash p
     || bool_decide (".." ∈ split_slash p)
  then None
  else Some (filter (λ c : string, c ≠ "" ∧ c ≠ ".") (split_slash p)).

(** [apart p q]: both paths are resolved, and to different files. *)
Definition apart (p q : string) : Prop :=
  match canon p, canon q with
  | Some cp, Some cq => cp ≠ cq
  | _, _ => False
  end.

(** A card identifier that is a plain name, without path separators. *)
Definition plain (c : string) : Prop :=
  mentions slash c = false ∧ mentions backslash c = false.

(** ** Errors and settled promises *)

(** The error kinds of the specification.  The code has no error values of
    its own: a rejection carries whatever the failing library call
    reported, and the model names it after the step that failed. *)
Inductive error :=
  | InvalidCardCount
  | ImageOpenError
  | DimensionMismatchError
  | PasteError
  | WriteError
  | UploadError.

Inductive outcome (A : Type) :=
  | Resolved (a : A)
  | Rejected (e : error).
Arguments Resolved {A} a.
Arguments Rejected {A} e.

(** ** The environment: codec and file system *)

Class Env := {
  (** the contents of a file *)
  data : Type;
  (** the decoder behind [lwip.open]; [None] for a file that is no image *)
  decode : data → option image;
  (** the encoder behind [img.writeFile] *)
  encode : image → data;
  (** whether the file system, with these directories, accepts a write to
      this path *)
  writable : gset string → string → bool;
  (** what a refused write of an image leaves at the path, from what was
      there: the old file, a truncated or partial one, or none *)
  torn : image → string → option data → option data
}.

Section ImageHelpers.
Context `{E : Env}.

Record world := World {
  files : gmap string data;
  dirs : gset string
}.

(** One call into [lwip] or [fs], with its arguments and how it ended. *)
Inductive event :=
  | EvMkdir (path : string)
  | EvOpen (path : option string) (ok : bool)
  | EvCreate (w h : nat) (c : color)
  | EvPaste (src dest : image) (x y : nat) (ok : bool)
  | EvWrite (img : image) (path : string) (ok : bool).

Definition ev_ok (e : event) : bool :=
  match e with
  | EvMkdir _ | EvCreate _ _ _ => true
  | EvOpen _ ok | EvPaste _ _ _ _ ok | EvWrite _ _ ok => ok
  end.

(** The error a failed call rejects with. *)
Definition ev_error (e : event) : option error :=
  match e with
  | EvOpen _ false => Some ImageOpenError
  | EvPaste _ _ _ _ false => Some PasteError
  | EvWrite _ _ false => Some WriteError
  | _ => None
  end.

Record settled (A : Type) := Settled {
  result : outcome A;
  after : world;
  trace : list event
}.
Arguments Settled {A} result after trace.
Arguments result {A} s.
Arguments after {A} s.
Arguments trace {A} s.

Definition promise (A : Type) : Type := world → settled A.

(** [p.then(f)]: [f] runs on the value [p] resolves with; a rejection of
    [p] skips [f] and is the rejection of the whole chain. *)
Definition then_ {A B : Type} (p : promise A) (f : A → promise B) : promise B :=
  λ w,
    let s := p w in
    match result s with
    | Resolved a =>
        let s' := f a (after s) in
        Settled (result s') (after s') (trace s ++ trace s')
    | Rejected e => Settled (Rejected e) (after s) (trace s)
    end.

#[warnings="-postfix-notation-not-level-1"]
Notation "p '.then' ( x => q )" := (then_ p (λ x, q))
  (at level 60, x binder, right associativity,
   format "p '//' '.then'  ( x  =>  q )").

(** [fs.existsSync] and [fs.mkdirSync]. *)
Definition existsSync (path : string) (w : world) : bool :=
  bool_decide (path ∈ dirs w) || bool_decide (is_Some (files w !! path)).

Definition mkdirSync (path : string) (w : world) : world :=
  World (files w) ({[path]} ∪ dirs w).

(** What [lwip.open] decodes from the file at a path, if anything. *)
Definition readImage (w : world) (path : string) : option image :=
  files w !! path ≫= decode.

(** [openImage = promisify(lwip.open)].  The path is an array element and
    is [None] when the array is too short ([undefined] in the source). *)
Definition openImage (path : option string) : promise image :=
  λ w,
    match path ≫= readImage w with
    | Some img => Settled (Resolved img) w [EvOpen path true]
    | None => Settled (Rejected ImageOpenError) w [EvOpen path false]
    end.

(** [createImage = promisify(lwip.create)]. *)
Definition createImage (w h : nat) (c : color) : promise image :=
  λ st, Settled (Resolved (blank w h c)) st [EvCreate w h c].

(** [ImageHelpers.paste(src, dest, x, y)]. *)
Definition paste (src dest : image) (x y : nat) : promise image :=
  λ w,
    match img_paste x y src dest with
    | Some img => Settled (Resolved img) w [EvPaste src dest x y true]
    | None => Settled (Rejected PasteError) w [EvPaste src dest x y false]
    end.

(** The file system after the file at a path was changed by [f] (given
    what was there, what is there now), all else as before. *)
Definition touch (path : string) (f : option data → option data)
    (w : world) : world :=
  World (partial_alter f path (files w)) (dirs w).

(** [ImageHelpers.writeFile(img, outputFile)].  The code passes the error
    of a refused write on and does not look at the file; what is at
    [outputFile] then is the environment's [torn]. *)
Definition writeFile (img : image) (outputFile : string) : promise string :=
  λ w,
    if writable (dirs w) outputFile
    then Settled (Resolved outputFile)
           (World (<[outputFile := encode img]> (files w)) (dirs w))
           [EvWrite img outputFile true]
    else Settled (Rejected WriteError)
           (touch outputFile (torn img outputFile) w)
           [EvWrite img outputFile false].

(** [ImageHelpers.combineTwo(imageFiles, outputFile)].  The source chains
    the steps one after the other and keeps the opened images in the array
    [images]; here each step is nested in the continuation of the one
    before it, so that [firstImage] ([images[0]]) and [secondImage]
    ([images[1]]) stay in scope ([then_assoc] relates the two shapes). *)
Definition combineTwo (imageFiles : list string) (outputFile : string)
  : promise string :=
  openImage (imageFiles !! 0)
  .then (firstImage =>
  openImage (imageFiles !! 1)
  .then (secondImage =>
  createImage (width firstImage + width secondImage) (height firstImage) white
  .then (destImage =>
  paste firstImage destImage 0 0
  .then (destImage =>
  paste secondImage destImage (width firstImage) 0
  .then (destImage =>
  writeFile destImage outputFile))))).

(** [ImageHelpers.combineThree(imageFiles, outputFile)].  The array
    [[outputFile, imageFiles[2]]] ends after [outputFile] when
    [imageFiles[2]] is [undefined]; the element at index 1 is [undefined]
    either way. *)
Definition combineThree (imageFiles : list string) (outputFile : string)
  : promise string :=
  combineTwo (take 2 imageFiles) outputFile
  .then (_ =>
  combineTwo (outputFile :: option_list (imageFiles !! 2)) outputFile).

(** The asset of a card, [`resources/${c}.jpeg`]. *)
Definition resource (c : string) : string := "resources/" +:+ c +:+ ".jpeg".

(** What a call of [createBoardImage] leaves behind: the settled promise
    it returned ([None] when it returned [undefined]), the file system and
    the library calls made. *)
Record completed := Completed {
  value : option (outcome string);
  final : world;
  calls : list event
}.

(** The first statement of [createBoardImage]: [./output] is created
    unless something of that name exists. *)
Definition ensureOutput (w : world) : world * list event :=
  if existsSync "./output" w then (w, [])
  else (mkdirSync "./output" w, [EvMkdir "./output"]).

(** [ImageHelpers.createBoardImage(cards)].  [None] is [undefined], what a
    [switch] without a matching case returns.  In the cases 4 and 5 the
    list has the elements [imageFiles[3]] and [imageFiles[4]]. *)
Definition createBoardImage (cards : list string) : world → completed :=
  λ w,
    let imageFiles : list string := resource <$> cards in
    let '(w, made) := ensureOutput w in
    let returns (p : promise string) :=
      let s := p w in Completed (Some (result s)) (after s) (made ++ trace s) in
    match imageFiles with
    | [_; _; _] =>
        returns (combineThree imageFiles "./output/flop.jpeg")
    | [_; _; _; file3] =>
        returns (combineTwo ["./output/flop.jpeg"; file3] "./output/turn.jpeg")
    | [_; _; _; file3; file4] =>
        returns (combineThree ["./output/flop.jpeg"; file3; file4]
                   "./output/river.jpeg")
    | _ => Completed None w made
    end.

(** The image files a call of [createBoardImage] reads and the path it
    writes, by the cases of its [switch]. *)
Definition stage (cards : list string) : option (list string * string) :=
  match resource <$> cards with
  | [file0; file1; file2] =>
      Some ([file0; file1; file2], "./output/flop.jpeg")
  | [_; _; _; file3] =>
      Some (["./output/flop.jpeg"; file3], "./output/turn.jpeg")
  | [_; _; _; file3; file4] =>
      Some (["./output/flop.jpeg"; file3; file4], "./output/river.jpeg")
  | _ => None
  end.

(** The combination [createBoardImage] runs on the files of a stage. *)
Definition combine (sources : list string) (outputFile : string)
  : promise string :=
  match sources with
  | [_; _] => combineTwo sources outputFile
  | _ => combineThree sources outputFile
  end.

(** The file system after at most one write to [outputFile]. *)
Definition write_to (outputFile : string) (d : option data) (w : world)
  : world :=
  match d with
  | Some d => World (<[outputFile := d]> (files w)) (dirs w)
  | None => w
  end.

(** The calls [combineTwo] makes once both images are open, up to the
    first paste. *)
Definition opened_calls (p0 p1 : option string) (a b : image) : list event :=
  [EvOpen p0 true; EvOpen p1 true;
   EvCreate (width a + width b) (height a) white;
   EvPaste a (blank (width a + width b) (height a) white) 0 0 true].

(** A rejection comes from the last call made, all calls before it
    succeeded; a resolved promise made only calls that succeeded. *)
Definition fail_fast {A : Type} (r : outcome A) (tr : list event) : Prop :=
  match r with
  | Resolved _ => Forall (λ ev, ev_ok ev = true) tr
  | Rejected e =>
      ∃ done last, tr = done ++ [last]
        ∧ Forall (λ ev, ev_ok ev = true) done
        ∧ ev_ok last = false ∧ ev_error last = Some e
  end.

(** The three files [createBoardImage] writes. *)
Definition outputs : list string :=
  ["./output/flop.jpeg"; "./output/turn.jpeg"; "./output/river.jpeg"].

(** No file the stage of these cards reads is the file it writes. *)
Definition unaliased (cards : list string) : Prop :=
  ∀ sources out, stage cards = Some (sources, out) →
    Forall (λ q, apart q out) sources.

(** The asset of the card is none of the three output files. *)
Definition is_asset (c : string) : Prop :=
  Forall (apart (resource c)) outputs.

(** What one combination may have done to the file at [outputFile],
    by its outcome: a resolved one left there what it encoded; one that
    rejected, unless a write was refused, left it alone or left there
    what an earlier step encoded. *)
Definition steady (r : outcome string) (f : option data → option data)
  : Prop :=
  match r with
  | Resolved _ => ∃ d, ∀ o, f o = Some d
  | Rejected e =>
      e = WriteError ∨ (∀ o, f o = o) ∨ ∃ d, ∀ o, f o = Some d
  end.

(** The directories a list of calls created. *)
Definition mkdirs (tr : list event) : list string :=
  omap (λ ev, match ev with EvMkdir p => Some p | _ => None end) tr.

End ImageHelpers.

Arguments Settled {E A} result after trace.
Arguments result {E A} s.
Arguments after {E A} s.
Arguments trace {E A} s.

(** ** A reference environment

    Files hold bitmaps as they are (a lossless codec) and a write is
    accepted when the directory of the path exists. *)
Module Ref.

Fixpoint has_slash (s : string) : bool :=
  match s with
  | EmptyString => false
  | String c r => if Ascii.eqb c (Ascii.ascii_of_nat 47) then true else has_slash r
  end.

(** The path up to its last ["/"]; empty for a bare file name. *)
Fixpoint dirname (s : string) : string :=
  match s with
  | EmptyString => EmptyString
  | String c r => if has_slash r then String c (dirname r) else EmptyString
  end.

Definition env : Env := {|
  data := image;
  decode := Some;
  encode := id;
  writable := λ ds p,
    bool_decide (dirname p = "") || bool_decide (dirname p ∈ ds);
  torn := λ _ _ old, old
|}.

Definition shade (n : N) : color := RGB n n n.

(** Card assets, 2 pixels wide and 3 high, each of one shade. *)
Definition card (n : N) : image := blank 2 3 (shade n).

Definition assets : gmap string image :=
  <["resources/2h.jpeg" := card 2]>
  (<["resources/9s.jpeg" := card 9]>
  (<["resources/Kd.jpeg" := card 13]>
  (<["resources/7c.jpeg" := card 7]>
  (<["resources/Ah.jpeg" := card 14]> ∅)))).

(** A fresh checkout: the assets and no output directory. *)
Definition fresh : world (E := env) := World (E := env) assets {["resources"]}.

Definition flop_cards : list string := ["2h"; "9s"; "Kd"].
Definition turn_cards : list string := ["2h"; "9s"; "Kd"; "7c"].
Definition river_cards : list string := ["2h"; "9s"; "Kd"; "7c"; "Ah"].

(** The file system after the flop, and after the flop and the turn. *)
Definition after_flop : world (E := env) :=
  final (createBoardImage flop_cards fresh).

Definition after_turn : world (E := env) :=
  final (createBoardImage turn_cards after_flop).

(** Three images in one directory; the third is at the path that
    [combineThree] is asked to write. *)
Definition aliased : world (E := env) :=
  World (E := env)
    (<["a.jpeg" := card 2]>
     (<["b.jpeg" := card 9]>
     (<["out.jpeg" := card 13]> ∅))) ∅.

(** Three images of different heights, in one directory. *)
Definition uneven : world (E := env) :=
  World (E := env)
    (<["mid.jpeg" := blank 2 3 (shade 1)]>
     (<["low.jpeg" := blank 2 2 (shade 2)]>
     (<["high.jpeg" := blank 2 4 (shade 3)]> ∅))) ∅.

End Ref.

(** * Properties *)

Section Properties.
Context `{E : Env}.

Implicit Types (w v : world) (a b : image).

(** ** Pixels of a pasted image *)

Lemma getPixel_pasted x y src dest px py :
  getPixel (pasted x y src dest) px py
  = (λ p, if covered x y (width src) (height src) px py
          then default p (getPixel src (px - x) (py - y)) else p)
    <$> getPixel dest px py.
Proof.
  unfold getPixel, pasted; simpl.
  rewrite list_lookup_imap.
  destruct (rows dest !! py) as [row|]; simpl; [|done].
  by rewrite list_lookup_imap.
Qed.

Lemma getPixel_blank n h col x y :
  x < n → y < h → getPixel (blank n h col) x y = Some col.
Proof.
  intros Hx Hy. unfold getPixel, blank; simpl.
  rewrite lookup_replicate_2 by done; simpl.
  by rewrite lookup_replicate_2.
Qed.

Lemma getPixel_sideBySide_left a b x y col :
  y < height a → getPixel a x y = Some col → x < width a →
  getPixel (sideBySide a b) x y = Some col.
Proof.
  intros Hy Ha Hx. unfold sideBySide.
  rewrite !getPixel_pasted, getPixel_blank by lia; simpl.
  unfold covered.
  rewrite (bool_decide_eq_false_2 (width a ≤ x < _ ∧ _)) by lia.
  rewrite bool_decide_eq_true_2 by lia.
  by rewrite !Nat.sub_0_r, Ha.
Qed.

Lemma getPixel_sideBySide_right a b x y col :
  height b ≤ height a → y < height b → getPixel b x y = Some col →
  x < width b →
  getPixel (sideBySide a b) (width a + x) y = Some col.
Proof.
  intros Hh Hy Hb Hx. unfold sideBySide.
  rewrite !getPixel_pasted, getPixel_blank by lia; simpl.
  unfold covered.
  rewrite (bool_decide_eq_true_2 (width a ≤ _ < _ ∧ _)) by lia.
  replace (width a + x - width a) with x by lia.
  by rewrite !Nat.sub_0_r, Hb.
Qed.

(** ** The canvas of two images against row-wise concatenation *)

Lemma sideBySide_width a b : width (sideBySide a b) = width a + width b.
Proof. done. Qed.

Lemma sideBySide_height a b : height (sideBySide a b) = height a.
Proof. done. Qed.

Lemma wf_row a y r : wf_image a → rows a !! y = Some r → length r = width a.
Proof. intros [_ Hr] Hy. by eapply (Forall_lookup_1 _ _ _ _ Hr). Qed.

Lemma sideBySide_rows a b :
  wf_image a → wf_image b → height b = height a →
  rows (sideBySide a b) = zip_with app (rows a) (rows b).
Proof.
  intros Ha Hb Hh. apply list_eq. intros y.
  unfold sideBySide, pasted, blank; cbn [rows width height].
  rewrite !list_lookup_imap, lookup_zip_with.
  destruct (decide (y < height a)) as [Hy|Hy].
  2: { rewrite (proj1 (lookup_replicate_None _ _ _)) by lia.
       rewrite (lookup_ge_None_2 (rows a)); [done|].
       destruct Ha as [-> _]. lia. }
  rewrite lookup_replicate_2 by done.
  destruct (lookup_lt_is_Some_2 (rows a) y) as [ra Hra];
    [destruct Ha as [-> _]; lia|].
  destruct (lookup_lt_is_Some_2 (rows b) y) as [rb Hrb];
    [destruct Hb as [-> _]; lia|].
  rewrite Hra, Hrb. cbn [fmap option_fmap option_map mbind option_bind].
  f_equal. apply list_eq. intros x.
  pose proof (wf_row a y ra Ha Hra) as Hla.
  pose proof (wf_row b y rb Hb Hrb) as Hlb.
  rewrite !list_lookup_imap.
  destruct (decide (x < width a + width b)) as [Hx|Hx].
  2: { rewrite (proj1 (lookup_replicate_None _ _ _)) by lia.
       rewrite lookup_ge_None_2; [done|]. rewrite length_app. lia. }
  rewrite lookup_replicate_2 by done.
  cbn [fmap option_fmap option_map].
  unfold covered, getPixel.
  destruct (decide (x < width a)) as [Hxa|Hxa].
  - rewrite (bool_decide_eq_false_2 (width a ≤ x < _ ∧ _)) by lia.
    rewrite bool_decide_eq_true_2 by lia.
    rewrite !Nat.sub_0_r, Hra. cbn [mbind option_bind].
    rewrite lookup_app_l by lia.
    destruct (lookup_lt_is_Some_2 ra x) as [p Hp]; [lia|].
    by rewrite Hp.
  - rewrite (bool_decide_eq_true_2 (width a ≤ x < _ ∧ _)) by lia.
    rewrite !Nat.sub_0_r, Hrb. cbn [mbind option_bind].
    rewrite lookup_app_r by lia. rewrite Hla.
    destruct (lookup_lt_is_Some_2 rb (x - width a)) as [p Hp]; [lia|].
    by rewrite Hp.
Qed.

Lemma sideBySide_wf a b :
  wf_image a → wf_image b → height b = height a →
  wf_image (sideBySide a b).
Proof.
  intros Ha Hb Hh. unfold wf_image.
  rewrite sideBySide_rows by done.
  rewrite sideBySide_width, sideBySide_height.
  split.
  - rewrite length_zip_with.
    destruct Ha as [-> _], Hb as [-> _]. lia.
  - apply Forall_lookup. intros y r.
    rewrite lookup_zip_with.
    destruct (rows a !! y) as [ra|] eqn:Hra; [|done].
    destruct (rows b !! y) as [rb|] eqn:Hrb; [|done].
    cbn. intros [= <-]. rewrite length_app.
    by rewrite (wf_row a y ra), (wf_row b y rb).
Qed.

Lemma concatRows3_zip (ra rb rc : list (list color)) :
  zip_with app (zip_with app ra rb) rc = concatRows3 ra rb rc.
Proof.
  revert rb rc. induction ra as [|r1 ra IH]; intros [|r2 rb] [|r3 rc];
    simpl; try done.
  by rewrite IH, <- app_assoc.
Qed.

(** The canvas of the canvas of [a] and [b] with [c] is the three images
    side by side. *)
Lemma sideBySide_hconcat3 a b (c : image) :
  wf_image a → wf_image b → wf_image c →
  height b = height a → height c = height a →
  sideBySide (sideBySide a b) c = hconcat3 a b c.
Proof.
  intros Ha Hb Hc Hhb Hhc.
  pose proof (sideBySide_wf a b Ha Hb Hhb) as Hab.
  pose proof (sideBySide_rows (sideBySide a b) c Hab Hc Hhc) as Hrows.
  rewrite (sideBySide_rows a b), concatRows3_zip in Hrows by done.
  unfold hconcat3. rewrite <- Hrows. done.
Qed.

(** ** The promise chain *)

Lemma then_assoc {A B C : Type} (p : promise A) (f : A → promise B)
    (g : B → promise C) w :
  then_ (then_ p f) g w = then_ p (λ x, then_ (f x) g) w.
Proof.
  unfold then_; simpl.
  destruct (result (p w)); simpl; [|done].
  destruct (result (f _ _)); simpl; by rewrite ?app_assoc.
Qed.

Lemma then_resolved {A B : Type} (p : promise A) (f : A → promise B) w x :
  result (p w) = Resolved x →
  then_ p f w =
    Settled (result (f x (after (p w)))) (after (f x (after (p w))))
      (trace (p w) ++ trace (f x (after (p w)))).
Proof. unfold then_; simpl. by intros ->. Qed.

Lemma then_rejected {A B : Type} (p : promise A) (f : A → promise B) w e :
  result (p w) = Rejected e →
  then_ p f w = Settled (Rejected e) (after (p w)) (trace (p w)).
Proof. unfold then_; simpl. by intros ->. Qed.

(** ** The runs of [combineTwo] *)

Lemma img_paste_first a b :
  img_paste 0 0 a (blank (width a + width b) (height a) white)
  = Some (pasted 0 0 a (blank (width a + width b) (height a) white)).
Proof. unfold img_paste. rewrite decide_True; [done | simpl; lia]. Qed.

Lemma img_paste_second a b :
  img_paste (width a) 0 b
    (pasted 0 0 a (blank (width a + width b) (height a) white))
  = if decide (height b ≤ height a) then Some (sideBySide a b) else None.
Proof.
  unfold img_paste; simpl.
  destruct (decide (height b ≤ height a)).
  - rewrite decide_True; [done | lia].
  - rewrite decide_False; [done | lia].
Qed.

Lemma combineTwo_open0 (fs : list string) out w :
  fs !! 0 ≫= readImage w = None →
  combineTwo fs out w
  = Settled (Rejected ImageOpenError) w [EvOpen (fs !! 0) false].
Proof. intros H. unfold combineTwo, then_, openImage. by rewrite H. Qed.

Lemma combineTwo_open1 (fs : list string) out w a :
  fs !! 0 ≫= readImage w = Some a →
  fs !! 1 ≫= readImage w = None →
  combineTwo fs out w
  = Settled (Rejected ImageOpenError) w
      [EvOpen (fs !! 0) true; EvOpen (fs !! 1) false].
Proof.
  intros H0 H1. unfold combineTwo, then_, openImage.
  rewrite H0; simpl. by rewrite H1.
Qed.

Lemma combineTwo_opened (fs : list string) out w a b :
  fs !! 0 ≫= readImage w = Some a →
  fs !! 1 ≫= readImage w = Some b →
  combineTwo fs out w
  = if decide (height b ≤ height a) then
      if writable (dirs w) out then
        Settled (Resolved out)
          (World (<[out := encode (sideBySide a b)]> (files w)) (dirs w))
          (opened_calls (fs !! 0) (fs !! 1) a b
             ++ [EvPaste b
                   (pasted 0 0 a (blank (width a + width b) (height a) white))
                   (width a) 0 true;
                 EvWrite (sideBySide a b) out true])
      else
        Settled (Rejected WriteError)
          (touch out (torn (sideBySide a b) out) w)
          (opened_calls (fs !! 0) (fs !! 1) a b
             ++ [EvPaste b
                   (pasted 0 0 a (blank (width a + width b) (height a) white))
                   (width a) 0 true;
                 EvWrite (sideBySide a b) out false])
    else
      Settled (Rejected PasteError) w
        (opened_calls (fs !! 0) (fs !! 1) a b
           ++ [EvPaste b
                 (pasted 0 0 a (blank (width a + width b) (height a) white))
                 (width a) 0 false]).
Proof.
  intros H0 H1. unfold combineTwo, then_, openImage, createImage, paste.
  rewrite H0; simpl. rewrite H1; simpl.
  rewrite img_paste_first; simpl.
  rewrite img_paste_second.
  destruct (decide (height b ≤ height a)); simpl; [|done].
  unfold writeFile. by destruct (writable (dirs w) out).
Qed.

Lemma combineTwo_resolved (fs : list string) out w x :
  result (combineTwo fs out w) = Resolved x →
  ∃ a b, fs !! 0 ≫= readImage w = Some a
    ∧ fs !! 1 ≫= readImage w = Some b
    ∧ height b ≤ height a
    ∧ writable (dirs w) out = true
    ∧ x = out
    ∧ after (combineTwo fs out w)
      = World (<[out := encode (sideBySide a b)]> (files w)) (dirs w).
Proof.
  destruct (fs !! 0 ≫= readImage w) as [a|] eqn:H0;
    [|by rewrite combineTwo_open0].
  destruct (fs !! 1 ≫= readImage w) as [b|] eqn:H1;
    [|by rewrite (combineTwo_open1 _ _ _ a)].
  rewrite (combineTwo_opened _ _ _ a b) by done.
  destruct (decide (height b ≤ height a)); [|done].
  destruct (writable (dirs w) out) eqn:Hw; [|done].
  simpl. intros [= <-]. by exists a, b.
Qed.


(** ** Paths that name different files *)

Lemma apart_ne p q : apart p q → p ≠ q.
Proof.
  intros H ->. unfold apart in H. destruct (canon q); [by apply H|done].
Qed.

Lemma apart_sym p q : apart p q → apart q p.
Proof.
  unfold apart. destruct (canon p), (canon q); auto.
Qed.

Lemma split_slash_plain (s : string) :
  mentions slash s = false → split_slash s = [s].
Proof.
  induction s as [|c s IH]; simpl; [done|].
  destruct (Ascii.eqb c slash); simpl; [done|].
  intros Hs. by rewrite IH.
Qed.

Lemma mentions_app (ch : Ascii.ascii) (s t : string) :
  mentions ch (s +:+ t) = mentions ch s || mentions ch t.
Proof.
  induction s as [|c s IH]; simpl; [done|]. by rewrite IH, orb_assoc.
Qed.

Lemma jpeg_name (c : string) :
  c +:+ ".jpeg" ≠ "" ∧ c +:+ ".jpeg" ≠ "." ∧ c +:+ ".jpeg" ≠ "..".
Proof. destruct c as [|c0 [|c1 [|c2 c]]]; simpl; split_and!; discriminate. Qed.

(** The asset of a plain card identifier is the file of that name in
    [resources]. *)
Lemma canon_resource c :
  plain c → canon (resource c) = Some ["resources"; c +:+ ".jpeg"].
Proof.
  intros [Hs Hb].
  pose proof (jpeg_name c) as (Hn0 & Hn1 & Hn2).
  assert (split_slash (c +:+ ".jpeg") = [c +:+ ".jpeg"]) as Hname.
  { apply split_slash_plain. by rewrite mentions_app, Hs. }
  assert (mentions backslash (c +:+ ".jpeg") = false) as Hback
    by by rewrite mentions_app, Hb.
  assert (split_slash (resource c) = ["resources"; c +:+ ".jpeg"]) as Hsplit.
  { change (split_slash (resource c))
      with ("resources" :: split_slash (c +:+ ".jpeg")).
    by rewrite Hname. }
  unfold canon. rewrite Hsplit.
  assert (mentions backslash (resource c) = false) as ->.
  { change (mentions backslash (resource c))
      with (mentions backslash (c +:+ ".jpeg")).
    exact Hback. }
  rewrite bool_decide_eq_false_2.
  2: { intros Hin. apply elem_of_cons in Hin as [?|Hin]; [done|].
       apply list_elem_of_singleton in Hin. by apply Hn2. }
  simpl. f_equal.
  rewrite filter_cons_True by (split; discriminate).
  rewrite filter_cons_True by done. done.
Qed.

(** The assets of plain card identifiers are none of the output files. *)
Lemma plain_is_asset c : plain c → is_asset c.
Proof.
  intros Hc. unfold is_asset, outputs.
  repeat constructor; unfold apart; rewrite (canon_resource c Hc);
    vm_compute; discriminate.
Qed.

(** ** What a combination reads and writes *)

Lemma reads_agree (fs : list string) v w i :
  (∀ q, q ∈ fs → readImage v q = readImage w q) →
  fs !! i ≫= readImage v = fs !! i ≫= readImage w.
Proof.
  intros Hag. destruct (fs !! i) as [q|] eqn:Hq; simpl; [|done].
  apply Hag. by eapply list_elem_of_lookup_2.
Qed.

Lemma readImage_write_to out upd w q :
  q ≠ out → readImage (write_to out upd w) q = readImage w q.
Proof.
  intros Hne. unfold readImage, write_to.
  destruct upd; simpl; [|done]. by rewrite lookup_insert_ne.
Qed.

Lemma readImage_written out d w :
  readImage (write_to out (Some d) w) out = decode d.
Proof. unfold readImage; simpl. by rewrite lookup_insert_eq. Qed.

Lemma write_to_twice out upd1 upd2 w :
  write_to out upd2 (write_to out upd1 w)
  = write_to out (match upd2 with Some d => Some d | None => upd1 end) w.
Proof.
  destruct upd2, upd1; simpl; try done. by rewrite insert_insert_eq.
Qed.

Lemma touch_id out f w : (∀ o, f o = o) → touch out f w = w.
Proof.
  intros Hf. destruct w as [fl ds]. unfold touch; simpl. f_equal.
  by apply partial_alter_id.
Qed.

Lemma touch_const out f d w :
  (∀ o, f o = Some d) → touch out f w = write_to out (Some d) w.
Proof.
  intros Hf. unfold touch, write_to. f_equal.
  apply (partial_alter_ext f (λ _, Some d)). auto.
Qed.

Lemma touch_touch out f g w :
  touch out f (touch out g w) = touch out (f ∘ g) w.
Proof.
  unfold touch; simpl. f_equal.
  by rewrite partial_alter_partial_alter, decide_True.
Qed.

Lemma touch_ext out f g w :
  (∀ o, f o = g o) → touch out f w = touch out g w.
Proof. intros Hfg. unfold touch. f_equal. apply partial_alter_ext. auto. Qed.

Lemma files_touch_ne out f w q :
  q ≠ out → files (touch out f w) !! q = files w !! q.
Proof. intros Hne. simpl. by rewrite lookup_partial_alter_ne. Qed.

Lemma files_touch_eq out f w :
  files (touch out f w) !! out = f (files w !! out).
Proof. simpl. by rewrite lookup_partial_alter_eq. Qed.

Lemma readImage_touch out f w q :
  q ≠ out → readImage (touch out f w) q = readImage w q.
Proof. intros Hne. unfold readImage. by rewrite files_touch_ne. Qed.

Lemma dirs_touch out f w : dirs (touch out f w) = dirs w.
Proof. done. Qed.

(** Unless a write was refused, doing again what a combination did to
    the file changes nothing more. *)
Lemma steady_twice (r : outcome string) f out w :
  steady r f → r ≠ Rejected WriteError →
  touch out f (touch out f w) = touch out f w.
Proof.
  intros Hst Hr. rewrite touch_touch. apply touch_ext. intros o; simpl.
  destruct r as [x|e]; simpl in Hst.
  - destruct Hst as [d Hd]. by rewrite !Hd.
  - destruct Hst as [->|[Hid|[d Hd]]]; [done|by rewrite !Hid|by rewrite !Hd].
Qed.

(** [combineTwo] depends on the images its two files decode to and on
    the directories, and changes the file system at [outputFile] only:
    by its write when it resolves, by what a refused write left, and not
    at all when it rejected before. *)
Lemma combineTwo_footprint (fs : list string) out w :
  ∃ f,
    steady (result (combineTwo fs out w)) f
    ∧ ∀ v, dirs v = dirs w →
        (∀ q, q ∈ fs → readImage v q = readImage w q) →
        combineTwo fs out v
        = Settled (result (combineTwo fs out w)) (touch out f v)
            (trace (combineTwo fs out w)).
Proof.
  destruct (fs !! 0 ≫= readImage w) as [a|] eqn:H0.
  2: { exists id. rewrite combineTwo_open0 by done.
       split; [simpl; auto|]. intros v _ Hag.
       rewrite touch_id by done.
       apply combineTwo_open0. by rewrite (reads_agree _ _ w). }
  destruct (fs !! 1 ≫= readImage w) as [b|] eqn:H1.
  2: { exists id. rewrite (combineTwo_open1 _ _ _ a) by done.
       split; [simpl; auto|]. intros v _ Hag.
       rewrite touch_id by done.
       apply (combineTwo_open1 _ _ _ a); by rewrite (reads_agree _ _ w). }
  rewrite (combineTwo_opened _ _ _ a b) by done.
  destruct (decide (height b ≤ height a)) as [Hh|Hh].
  2: { exists id. split; [simpl; auto|]. intros v _ Hag.
       rewrite touch_id by done.
       rewrite (combineTwo_opened _ _ _ a b)
         by by rewrite (reads_agree _ _ w).
       by rewrite decide_False. }
  destruct (writable (dirs w) out) eqn:Hw.
  - exists (λ _, Some (encode (sideBySide a b))).
    split; [simpl; eauto|]. intros v Hd Hag.
    rewrite (combineTwo_opened _ _ _ a b)
      by by rewrite (reads_agree _ _ w).
    rewrite <- Hd in Hw. by rewrite decide_True, Hw.
  - exists (torn (sideBySide a b) out).
    split; [simpl; auto|]. intros v Hd Hag.
    rewrite (combineTwo_opened _ _ _ a b)
      by by rewrite (reads_agree _ _ w).
    rewrite <- Hd in Hw. by rewrite decide_True, Hw.
Qed.

Lemma combineTwo_after (fs : list string) out w f :
  (∀ v, dirs v = dirs w →
     (∀ q, q ∈ fs → readImage v q = readImage w q) →
     combineTwo fs out v
     = Settled (result (combineTwo fs out w)) (touch out f v)
         (trace (combineTwo fs out w))) →
  after (combineTwo fs out w) = touch out f w.
Proof. intros Hv. by rewrite (Hv w). Qed.

Lemma combineThree_footprint (fs : list string) out w :
  ∃ f,
    steady (result (combineThree fs out w)) f
    ∧ ∀ v, dirs v = dirs w →
        (∀ q, q ∈ fs → readImage v q = readImage w q) →
        combineThree fs out v
        = Settled (result (combineThree fs out w)) (touch out f v)
            (trace (combineThree fs out w)).
Proof.
  unfold combineThree.
  destruct (combineTwo_footprint (take 2 fs) out w) as (f1 & Hs1 & Hv1).
  pose proof (combineTwo_after _ _ _ _ Hv1) as Ha1.
  assert (∀ v, (∀ q, q ∈ fs → readImage v q = readImage w q) →
            ∀ q, q ∈ take 2 fs → readImage v q = readImage w q) as Htake.
  { intros v Hag q Hq. apply Hag. by eapply subseteq_take. }
  destruct (result (combineTwo (take 2 fs) out w)) as [x|e] eqn:Hres1.
  - destruct Hs1 as [d1 Hd1].
    destruct (combineTwo_footprint (out :: option_list (fs !! 2)) out
                (touch out f1 w)) as (f2 & Hs2 & Hv2).
    pose proof (combineTwo_after _ _ _ _ Hv2) as Ha2.
    exists (f2 ∘ f1).
    rewrite (then_resolved _ _ _ x) by done. cbn [result after trace].
    rewrite Ha1. split.
    + destruct (result (combineTwo _ out (touch out f1 w))) as [y|e];
        simpl in *.
      * destruct Hs2 as [d2 Hd2]. exists d2. intros o. apply Hd2.
      * destruct Hs2 as [->|[Hid|[d2 Hd2]]]; [by left|right; right..].
        -- exists d1. intros o. by rewrite Hid, Hd1.
        -- exists d2. intros o. apply Hd2.
    + intros v Hd Hag.
      pose proof (Hv1 v Hd (Htake v Hag)) as Hfirst.
      rewrite (then_resolved _ _ _ x) by (by rewrite Hfirst).
      rewrite Hfirst. cbn [result after trace].
      rewrite Hv2; [by rewrite touch_touch|done|].
      intros q Hq.
      destruct (decide (q = out)) as [->|Hne].
      * unfold readImage. by rewrite !files_touch_eq, !Hd1.
      * rewrite !readImage_touch by done.
        apply Hag. apply elem_of_cons in Hq as [?|Hq]; [done|].
        destruct (fs !! 2) as [q'|] eqn:Hq'; simpl in Hq;
          [|by apply elem_of_nil in Hq].
        apply list_elem_of_singleton in Hq as ->.
        by eapply list_elem_of_lookup_2.
  - exists f1.
    rewrite (then_rejected _ _ _ e) by done. cbn [result after trace].
    split; [done|]. intros v Hd Hag.
    pose proof (Hv1 v Hd (Htake v Hag)) as Hfirst.
    rewrite (then_rejected _ _ _ e) by (by rewrite Hfirst).
    by rewrite Hfirst.
Qed.

Lemma combine_footprint (fs : list string) out w :
  ∃ f,
    steady (result (combine fs out w)) f
    ∧ ∀ v, dirs v = dirs w →
        (∀ q, q ∈ fs → readImage v q = readImage w q) →
        combine fs out v
        = Settled (result (combine fs out w)) (touch out f v)
            (trace (combine fs out w)).
Proof.
  unfold combine.
  destruct fs as [|f0 [|f1 [|f2 fs]]]; try apply combineThree_footprint.
  apply combineTwo_footprint.
Qed.

Lemma combine_after (fs : list string) out w f :
  (∀ v, dirs v = dirs w →
     (∀ q, q ∈ fs → readImage v q = readImage w q) →
     combine fs out v
     = Settled (result (combine fs out w)) (touch out f v)
         (trace (combine fs out w))) →
  after (combine fs out w) = touch out f w.
Proof. intros Hv. by rewrite (Hv w). Qed.

(** ** Fail-fast chains *)

Lemma fail_fast_then {A B : Type} (p : promise A) (f : A → promise B) w :
  fail_fast (result (p w)) (trace (p w)) →
  (∀ x v, fail_fast (result (f x v)) (trace (f x v))) →
  fail_fast (result (then_ p f w)) (trace (then_ p f w)).
Proof.
  intros Hp Hf. unfold then_.
  destruct (result (p w)) as [x|e] eqn:Hr; simpl in *; [|done].
  specialize (Hf x (after (p w))).
  destruct (result (f x (after (p w)))) as [y|e]; simpl in *.
  - by apply Forall_app.
  - destruct Hf as (done_ & last & -> & Hd & Hl & He).
    exists (trace (p w) ++ done_), last.
    rewrite app_assoc. split_and!; try done. by apply Forall_app.
Qed.

Lemma fail_fast_openImage path w :
  fail_fast (result (openImage path w)) (trace (openImage path w)).
Proof.
  unfold openImage. destruct (path ≫= readImage w); simpl.
  - by repeat constructor.
  - by exists [], (EvOpen path false).
Qed.

Lemma fail_fast_createImage n h col w :
  fail_fast (result (createImage n h col w)) (trace (createImage n h col w)).
Proof. simpl. by repeat constructor. Qed.

Lemma fail_fast_paste src dest x y w :
  fail_fast (result (paste src dest x y w)) (trace (paste src dest x y w)).
Proof.
  unfold paste. destruct (img_paste x y src dest); simpl.
  - by repeat constructor.
  - by exists [], (EvPaste src dest x y false).
Qed.

Lemma fail_fast_writeFile img out w :
  fail_fast (result (writeFile img out w)) (trace (writeFile img out w)).
Proof.
  unfold writeFile. destruct (writable (dirs w) out); simpl.
  - by repeat constructor.
  - by exists [], (EvWrite img out false).
Qed.

Lemma fail_fast_combineTwo (fs : list string) out w :
  fail_fast (result (combineTwo fs out w)) (trace (combineTwo fs out w)).
Proof.
  unfold combineTwo.
  repeat (apply fail_fast_then; [|intros ? ?]);
    auto using fail_fast_openImage, fail_fast_createImage, fail_fast_paste,
      fail_fast_writeFile.
Qed.

Lemma fail_fast_combineThree (fs : list string) out w :
  fail_fast (result (combineThree fs out w)) (trace (combineThree fs out w)).
Proof.
  unfold combineThree.
  apply fail_fast_then; [|intros ? ?]; apply fail_fast_combineTwo.
Qed.

Lemma fail_fast_prefix {A : Type} (r : outcome A) (pre tr : list event) :
  Forall (λ ev, ev_ok ev = true) pre → fail_fast r tr →
  fail_fast r (pre ++ tr).
Proof.
  intros Hpre. destruct r as [x|e]; simpl.
  - intros ?. by apply Forall_app.
  - intros (done_ & last & -> & Hd & Hl & He).
    exists (pre ++ done_), last.
    rewrite app_assoc. split_and!; try done. by apply Forall_app.
Qed.

Lemma ensureOutput_calls w :
  Forall (λ ev, ev_ok ev = true) (ensureOutput w).2.
Proof. unfold ensureOutput. destruct (existsSync _ w); by repeat constructor. Qed.

(** ** The dispatch of [createBoardImage] *)

Lemma createBoardImage_stage cards w :
  createBoardImage cards w
  = match stage cards with
    | Some (sources, out) =>
        let s := combine sources out (ensureOutput w).1 in
        Completed (Some (result s)) (after s) ((ensureOutput w).2 ++ trace s)
    | None => Completed None (ensureOutput w).1 (ensureOutput w).2
    end.
Proof.
  unfold createBoardImage, stage.
  destruct (ensureOutput w) as [w' made]; simpl.
  destruct cards as [|c0 [|c1 [|c2 [|c3 [|c4 [|c5 cards]]]]]]; done.
Qed.

Lemma stage_length cards :
  is_Some (stage cards)
  ↔ length cards = 3 ∨ length cards = 4 ∨ length cards = 5.
Proof.
  unfold stage.
  destruct cards as [|c0 [|c1 [|c2 [|c3 [|c4 [|c5 cards]]]]]]; simpl;
    (split; [intros [? ?]|intros ?]); try done; try lia; eauto.
Qed.

Lemma files_ensureOutput w : files (ensureOutput w).1 = files w.
Proof. unfold ensureOutput. by destruct (existsSync "./output" w). Qed.

Lemma readImage_ensureOutput w q :
  readImage (ensureOutput w).1 q = readImage w q.
Proof. unfold readImage. by rewrite files_ensureOutput. Qed.

Lemma ensureOutput_exists w :
  existsSync "./output" w = true → ensureOutput w = (w, []).
Proof. unfold ensureOutput. by intros ->. Qed.

Lemma existsSync_ensureOutput w :
  existsSync "./output" (ensureOutput w).1 = true.
Proof.
  unfold ensureOutput.
  destruct (existsSync "./output" w) eqn:Hex; simpl; [done|].
  unfold existsSync, mkdirSync; simpl.
  rewrite bool_decide_eq_true_2 by set_solver. done.
Qed.

Lemma existsSync_write_to p out upd w :
  existsSync p w = true → existsSync p (write_to out upd w) = true.
Proof.
  destruct upd as [d|]; [|done]. unfold existsSync; simpl.
  intros [Hd|Hf]%orb_true_iff; apply orb_true_iff; [by left|right].
  apply bool_decide_eq_true in Hf. apply bool_decide_eq_true.
  destruct (decide (out = p)) as [->|Hne].
  - rewrite lookup_insert_eq. eauto.
  - by rewrite lookup_insert_ne.
Qed.

Lemma existsSync_touch p out f w :
  p ≠ out → existsSync p w = true → existsSync p (touch out f w) = true.
Proof.
  intros Hne. unfold existsSync.
  by rewrite dirs_touch, files_touch_ne.
Qed.

Lemma stage_out cards sources out :
  stage cards = Some (sources, out) → out ∈ outputs.
Proof.
  unfold stage, outputs.
  destruct cards as [|c0 [|c1 [|c2 [|c3 [|c4 [|c5 cards]]]]]]; simpl;
    intros [= <- <-];
    repeat first [apply list_elem_of_here | apply list_elem_of_further].
Qed.

Lemma output_not_stage cards sources out :
  stage cards = Some (sources, out) → "./output" ≠ out.
Proof.
  intros Hs%stage_out. unfold outputs in Hs.
  repeat (apply elem_of_cons in Hs as [->|Hs]); try discriminate.
  by apply elem_of_nil in Hs.
Qed.

(** ** Runs that succeed *)

Lemma combineTwo_ok (fs : list string) (out : string) w a b :
  fs !! 0 ≫= readImage w = Some a → fs !! 1 ≫= readImage w = Some b →
  height b ≤ height a → writable (dirs w) out = true →
  result (combineTwo fs out w) = Resolved out
  ∧ after (combineTwo fs out w)
    = write_to out (Some (encode (sideBySide a b))) w.
Proof.
  intros H0 H1 Hh Hw.
  rewrite (combineTwo_opened fs out w a b) by done.
  by rewrite decide_True, Hw.
Qed.

Lemma combineThree_ok (f0 f1 f2 out : string) w a b c ab :
  readImage w f0 = Some a → readImage w f1 = Some b →
  readImage w f2 = Some c → f2 ≠ out →
  decode (encode (sideBySide a b)) = Some ab →
  height b ≤ height a → height c ≤ height ab →
  writable (dirs w) out = true →
  result (combineThree [f0; f1; f2] out w) = Resolved out
  ∧ after (combineThree [f0; f1; f2] out w)
    = write_to out (Some (encode (sideBySide ab c))) w.
Proof.
  intros H0 H1 H2 Hne Hab Hh Hh' Hw. unfold combineThree.
  destruct (combineTwo_ok [f0; f1] out w a b) as [Hr Ha]; [done..|].
  rewrite (then_resolved _ _ _ out) by done. cbn [result after trace].
  cbn [take lookup list_lookup option_list]. rewrite Ha.
  destruct (combineTwo_ok [out; f2] out
              (write_to out (Some (encode (sideBySide a b))) w) ab c)
    as [Hr' Ha']; try done.
  - change (readImage (write_to out (Some (encode (sideBySide a b))) w) out
            = Some ab).
    by rewrite readImage_written.
  - change (readImage (write_to out (Some (encode (sideBySide a b))) w) f2
            = Some c).
    by rewrite readImage_write_to.
  - change (option_list (Some f2)) with [f2].
    split; [done|]. by rewrite Ha', write_to_twice.
Qed.

(** ** Runs that miss a file *)

Lemma combineTwo_missing (fs : list string) (out q : string) (i : nat) w :
  fs !! i = Some q → i < 2 → readImage w q = None →
  result (combineTwo fs out w) = Rejected ImageOpenError
  ∧ after (combineTwo fs out w) = w.
Proof.
  intros Hq Hi Hnone.
  destruct (fs !! 0 ≫= readImage w) as [a|] eqn:H0;
    [|by rewrite combineTwo_open0].
  destruct i as [|[|i]]; [| |lia].
  - by rewrite Hq in H0; simpl in H0; rewrite Hnone in H0.
  - rewrite (combineTwo_open1 _ _ _ a); [done..|].
    rewrite Hq; simpl. done.
Qed.

Lemma combineThree_missing_pair (fs : list string) (out q : string)
    (i : nat) w :
  fs !! i = Some q → i < 2 → readImage w q = None →
  result (combineThree fs out w) = Rejected ImageOpenError
  ∧ after (combineThree fs out w) = w.
Proof.
  intros Hq Hi Hnone. unfold combineThree.
  destruct (combineTwo_missing (take 2 fs) out q i w) as [Hr Ha];
    [by rewrite lookup_take_lt|done..|].
  rewrite (then_rejected _ _ _ ImageOpenError) by done. done.
Qed.

Lemma combineThree_missing_last (fs : list string) (out q : string) w :
  fs !! 2 = Some q → q ≠ out → readImage w q = None →
  ∃ e, result (combineThree fs out w) = Rejected e.
Proof.
  intros Hq Hne Hnone. unfold combineThree.
  destruct (result (combineTwo (take 2 fs) out w)) as [x|e] eqn:Hr.
  - rewrite (then_resolved _ _ _ x) by done. cbn [result].
    apply combineTwo_resolved in Hr as (a & b & _ & _ & _ & _ & _ & ->).
    rewrite Hq. exists ImageOpenError.
    apply (combineTwo_missing _ _ q 1); [done|lia|].
    unfold readImage in *. simpl. by rewrite lookup_insert_ne.
  - rewrite (then_rejected _ _ _ e) by done. by exists e.
Qed.

(** Only the third file is missing: the first two images are combined and
    written before the third is opened. *)
Lemma combineThree_partial (fs : list string) (out q : string) w a b :
  fs !! 0 ≫= readImage w = Some a → fs !! 1 ≫= readImage w = Some b →
  height b ≤ height a → writable (dirs w) out = true →
  fs !! 2 = Some q → q ≠ out → readImage w q = None →
  result (combineThree fs out w) = Rejected ImageOpenError
  ∧ after (combineThree fs out w)
    = write_to out (Some (encode (sideBySide a b))) w.
Proof.
  intros H0 H1 Hh Hw Hq Hne Hnone. unfold combineThree.
  destruct (combineTwo_ok (take 2 fs) out w a b) as [Hr Ha];
    [by rewrite lookup_take_lt by lia..|done|done|].
  rewrite (then_resolved _ _ _ out) by done. cbn [result after trace].
  rewrite Ha, Hq.
  apply (combineTwo_missing _ _ q 1); [done|lia|].
  by rewrite readImage_write_to.
Qed.

(** C3.  [combineTwo] on two files that open as images [a] and [b], the
    second no higher than the first (the specification assumes equal
    heights): it creates a white canvas as wide as both and as high as
    [a], pastes [a] at (0,0) and [b] at (width of [a], 0), and calls
    [writeFile] with that canvas and the output path; these are all its
    calls, in this order.  The canvas shows the pixels of [a] from column
    0 and those of [b] from column [width a], and where the file system
    accepts the write the promise resolves and the file at the output path
    holds the encoded canvas. *)
Theorem combineTwo_canvas (f0 f1 out : string) w a b :
  readImage w f0 = Some a →
  readImage w f1 = Some b →
  height b ≤ height a →
  let s := combineTwo [f0; f1] out w in
  let canvas := blank (width a + width b) (height a) white in
  trace s
  = [EvOpen (Some f0) true; EvOpen (Some f1) true;
     EvCreate (width a + width b) (height a) white;
     EvPaste a canvas 0 0 true;
     EvPaste b (pasted 0 0 a canvas) (width a) 0 true;
     EvWrite (sideBySide a b) out (writable (dirs w) out)]
  ∧ width (sideBySide a b) = width a + width b
  ∧ height (sideBySide a b) = height a
  ∧ (∀ x y col, x < width a → y < height a → getPixel a x y = Some col →
       getPixel (sideBySide a b) x y = Some col)
  ∧ (∀ x y col, x < width b → y < height b → getPixel b x y = Some col →
       getPixel (sideBySide a b) (width a + x) y = Some col)
  ∧ (writable (dirs w) out = true →
       result s = Resolved out
       ∧ files (after s) = <[out := encode (sideBySide a b)]> (files w)
       ∧ dirs (after s) = dirs w).
Proof.
  intros H0 H1 Hh s canvas. subst s canvas.
  rewrite (combineTwo_opened [f0; f1] out w a b) by done.
  rewrite decide_True by done.
  split_and!.
  - by destruct (writable (dirs w) out).
  - done.
  - done.
  - intros x y col ???. by apply getPixel_sideBySide_left.
  - intros x y col ???. by apply getPixel_sideBySide_right.
  - by intros ->.
Qed.

(** C7.  No chain handles a rejection, so the first call that fails is
    the last call made and its error is the result: in [combineTwo],
    [combineThree] and [createBoardImage] every call before the failing
    one succeeded, nothing runs after it, and no call is made again after
    it failed.  [paste], [writeFile] and [openImage] each make one call
    and settle once, with its outcome. *)
Theorem first_error_propagates (fs cards : list string) (out : string)
    (path : option string) (src dest img : image) (x y : nat) w :
  fail_fast (result (combineTwo fs out w)) (trace (combineTwo fs out w))
  ∧ fail_fast (result (combineThree fs out w))
      (trace (combineThree fs out w))
  ∧ from_option (λ r, fail_fast r (calls (createBoardImage cards w))) True
      (value (createBoardImage cards w))
  ∧ (∃ ok, trace (paste src dest x y w) = [EvPaste src dest x y ok]
       ∧ fail_fast (result (paste src dest x y w))
           [EvPaste src dest x y ok])
  ∧ (∃ ok, trace (writeFile img out w) = [EvWrite img out ok]
       ∧ fail_fast (result (writeFile img out w)) [EvWrite img out ok])
  ∧ (∃ ok, trace (openImage path w) = [EvOpen path ok]
       ∧ fail_fast (result (openImage path w)) [EvOpen path ok]).
Proof.
  split_and!.
  - apply fail_fast_combineTwo.
  - apply fail_fast_combineThree.
  - rewrite createBoardImage_stage.
    destruct (stage cards) as [[sources o]|]; simpl; [|done].
    apply fail_fast_prefix; [apply ensureOutput_calls|].
    unfold combine.
    destruct sources as [|? [|? [|? ?]]];
      apply fail_fast_combineThree || apply fail_fast_combineTwo.
  - pose proof (fail_fast_paste src dest x y w) as H. revert H.
    unfold paste. destruct (img_paste x y src dest); simpl; eauto.
  - pose proof (fail_fast_writeFile img out w) as H. revert H.
    unfold writeFile. destruct (writable (dirs w) out); simpl; eauto.
  - pose proof (fail_fast_openImage path w) as H. revert H.
    unfold openImage. destruct (path ≫= readImage w); simpl; eauto.
Qed.

(** C10.  A promise of [combineTwo] or of [combineThree] that resolves,
    resolves with [outputFile], and the file at that path is what the
    last [writeFile] encoded. *)
Theorem resolves_with_outputFile (fs : list string) (out x : string) w :
  (result (combineTwo fs out w) = Resolved x →
     x = out
     ∧ ∃ img, files (after (combineTwo fs out w)) !! out = Some (encode img))
  ∧ (result (combineThree fs out w) = Resolved x →
     x = out
     ∧ ∃ img,
         files (after (combineThree fs out w)) !! out = Some (encode img)).
Proof.
  split.
  - intros (a & b & _ & _ & _ & _ & -> & ->)%combineTwo_resolved.
    split; [done|]. exists (sideBySide a b). simpl. apply lookup_insert_eq.
  - unfold combineThree, then_; simpl.
    destruct (result (combineTwo (take 2 fs) out w)) as [x0|e]; simpl;
      [|done].
    intros (a & b & _ & _ & _ & _ & -> & ->)%combineTwo_resolved.
    split; [done|]. exists (sideBySide a b). simpl. apply lookup_insert_eq.
Qed.

(** C9.  With four cards, or with five, [createBoardImage] reads only the
    cards from index 3 on: two sequences of that length with the same
    cards from index 3 on give the same promise, the same file system and
    the same calls, whatever their first three cards are. *)
Theorem trailing_cards_only (cards cards' : list string) w :
  length cards = length cards' →
  length cards = 4 ∨ length cards = 5 →
  drop 3 cards = drop 3 cards' →
  createBoardImage cards w = createBoardImage cards' w.
Proof.
  intros Hlen Hn Hdrop.
  destruct cards as [|c0 [|c1 [|c2 [|c3 [|c4 [|c5 cards]]]]]];
    simpl in Hn; try lia;
    destruct cards' as [|d0 [|d1 [|d2 [|d3 [|d4 [|d5 cards']]]]]];
    simpl in Hlen; try lia;
    simpl in Hdrop; by simplify_eq.
Qed.

(** C1, as the code has it.  With five cards [createBoardImage] runs the
    three-way combination of the flop file [./output/flop.jpeg] (not the
    turn file) with the assets of the cards at indices 3 and 4, and writes
    [./output/river.jpeg]. *)
Theorem river_from_flop (cards : list string) w :
  length cards = 5 →
  ∃ c3 c4, cards !! 3 = Some c3 ∧ cards !! 4 = Some c4
    ∧ createBoardImage cards w
      = let s := combineThree
                   ["./output/flop.jpeg"; resource c3; resource c4]
                   "./output/river.jpeg" (ensureOutput w).1 in
        Completed (Some (result s)) (after s) ((ensureOutput w).2 ++ trace s).
Proof.
  intros Hlen.
  destruct cards as [|c0 [|c1 [|c2 [|c3 [|c4 [|c5 cards]]]]]];
    simpl in Hlen; try lia.
  exists c3, c4. split_and!; [done..|].
  by rewrite createBoardImage_stage.
Qed.

(** C2, as the code has it.  For a number of cards other than 3, 4 and 5
    no case of the [switch] matches: [createBoardImage] returns
    [undefined], neither a promise nor an error; it opens and writes no
    image, and the only call it may make is the creation of [./output]. *)
Theorem other_counts_undefined (cards : list string) w :
  length cards ≠ 3 → length cards ≠ 4 → length cards ≠ 5 →
  let c := createBoardImage cards w in
  value c = None
  ∧ files (final c) = files w
  ∧ (calls c = [] ∨ calls c = [EvMkdir "./output"]).
Proof.
  intros H3 H4 H5 c. subst c. rewrite createBoardImage_stage.
  destruct (stage cards) as [[sources o]|] eqn:Hs.
  { assert (is_Some (stage cards)) as ?%stage_length by eauto. lia. }
  unfold ensureOutput. destruct (existsSync "./output" w); simpl; eauto.
Qed.

Lemma unaliased_ne cards sources out q :
  unaliased cards → stage cards = Some (sources, out) → q ∈ sources →
  q ≠ out.
Proof.
  intros Hun Hs Hq. apply apart_ne.
  by eapply (proj1 (Forall_forall _ _) (Hun _ _ Hs)).
Qed.

(** C8.  Running [createBoardImage] again on the same cards, on the file
    system the first run left, where no file the stage reads is the file
    it writes: the promise settles the same way and, unless a write was
    refused, every file, the output file among them, has the bytes the
    first run gave it.  And two runs on the same cards, from file systems
    with the same directories (once [./output] is there) and the same
    contents of the files the stage reads, settle the same way, make the
    same calls and, when they resolve, leave the same bytes at the output
    path.  The encoder is a function of the image, and a run reads the
    assets and the earlier stage's file, none of which it writes. *)
Theorem rerun_same_output (cards : list string) w :
  (unaliased cards →
   let c1 := createBoardImage cards w in
   let c2 := createBoardImage cards (final c1) in
   value c2 = value c1
   ∧ (value c1 ≠ Some (Rejected WriteError) → final c2 = final c1))
  ∧ ∀ v sources out,
      stage cards = Some (sources, out) →
      dirs (ensureOutput v).1 = dirs (ensureOutput w).1 →
      (ensureOutput v).2 = (ensureOutput w).2 →
      (∀ q, q ∈ sources → files v !! q = files w !! q) →
      let c1 := createBoardImage cards w in
      let c1' := createBoardImage cards v in
      value c1' = value c1
      ∧ calls c1' = calls c1
      ∧ (∀ x, value c1 = Some (Resolved x) →
           files (final c1') !! out = files (final c1) !! out
           ∧ is_Some (files (final c1) !! out)).
Proof.
  split.
  - intros Hun c1 c2. subst c1 c2. rewrite !createBoardImage_stage.
    pose proof (existsSync_ensureOutput w) as Hex.
    destruct (stage cards) as [[sources out]|] eqn:Hs; simpl.
    + destruct (combine_footprint sources out (ensureOutput w).1)
        as (f & Hst & Hv).
      rewrite (combine_after _ _ _ _ Hv).
      rewrite (ensureOutput_exists (touch _ _ _))
        by (apply existsSync_touch; [by eapply output_not_stage|done]).
      simpl. rewrite Hv.
      * simpl. split; [done|]. intros Hne.
        eapply steady_twice; [done|]. intros Heq. apply Hne.
        by rewrite Heq.
      * apply dirs_touch.
      * intros q Hq. apply readImage_touch. by eapply unaliased_ne.
    + by rewrite ensureOutput_exists.
  - intros v sources out Hs Hd Hmade Hag c1 c1'. subst c1 c1'.
    rewrite !createBoardImage_stage, Hs. cbn [value final calls].
    destruct (combine_footprint sources out (ensureOutput w).1)
      as (f & Hst & Hv).
    rewrite (Hv (ensureOutput v).1), (combine_after _ _ _ _ Hv), Hmade;
      [|done|].
    2: { intros q Hq. unfold readImage.
         by rewrite !files_ensureOutput, Hag. }
    cbn [result after trace]. split_and!; [done..|].
    intros x [= Hx]. rewrite Hx in Hst. destruct Hst as [d Hconst].
    rewrite !files_touch_eq, !Hconst. eauto.
Qed.

(** C6.  With 3, 4 or 5 cards, when every file the stage reads (the three
    assets for the flop; [./output/flop.jpeg] and the new assets for the
    turn and the river) is a file other than the one the stage writes and
    opens as an image of the common height [h], the file system accepts
    the write and a written image is read back with its dimensions, the
    promise resolves with the path of the stage, the file system changes
    at that path only, and the image there is as wide as the images read
    together and [h] high. *)
Theorem board_file_dimensions (cards sources : list string) (out : string)
    (imgs : list image) (h : nat) w :
  stage cards = Some (sources, out) →
  Forall (λ q, apart q out) sources →
  Forall2 (λ p i, readImage w p = Some i) sources imgs →
  Forall (λ i, height i = h) imgs →
  writable (dirs (ensureOutput w).1) out = true →
  (∀ i, ∃ j, decode (encode i) = Some j
             ∧ width j = width i ∧ height j = height i) →
  let done_ := createBoardImage cards w in
  value done_ = Some (Resolved out)
  ∧ out = match length cards with
          | 3 => "./output/flop.jpeg"
          | 4 => "./output/turn.jpeg"
          | _ => "./output/river.jpeg"
          end
  ∧ ∃ img j,
      files (final done_) = <[out := encode img]> (files w)
      ∧ readImage (final done_) out = Some j
      ∧ width j = sum_list (width <$> imgs)
      ∧ height j = h.
Proof.
  intros Hs Hap Hread Hh Hw Hcodec done_. subst done_.
  rewrite createBoardImage_stage, Hs. cbn [value final].
  assert (∀ k q, sources !! k = Some q → q ≠ out) as Hne.
  { intros k q Hq. apply apart_ne.
    by eapply (Forall_lookup_1 _ _ _ _ Hap). }
  assert (∀ p i, readImage w p = Some i →
            readImage (ensureOutput w).1 p = Some i) as Hre
    by (intros p i; by rewrite readImage_ensureOutput).
  rewrite <- (files_ensureOutput w).
  revert Hw Hre. generalize (ensureOutput w).1 as w1. intros w1 Hw Hre.
  unfold stage in Hs.
  destruct cards as [|c0 [|c1 [|c2 [|c3 [|c4 [|c5 cards]]]]]];
    simpl in Hs; try done; injection Hs as <- <-.
  - (* flop *)
    apply Forall2_cons_inv_l in Hread as (a & imgs1 & Ha & Hread & ->).
    apply Forall2_cons_inv_l in Hread as (b & imgs2 & Hb & Hread & ->).
    apply Forall2_cons_inv_l in Hread as (c & imgs3 & Hc & Hread & ->).
    apply Forall2_nil_inv_l in Hread as ->.
    apply Forall_cons in Hh as [Hha Hh].
    apply Forall_cons in Hh as [Hhb Hh].
    apply Forall_cons in Hh as [Hhc _].
    destruct (Hcodec (sideBySide a b)) as (ab & Hab & Hwab & Hhab).
    destruct (combineThree_ok (resource c0) (resource c1) (resource c2)
                "./output/flop.jpeg" w1 a b c ab) as [Hr Haf];
      [by apply Hre|by apply Hre|by apply Hre|by apply (Hne 2)|done
      |simpl in *; lia|simpl in *; lia|done|].
    unfold combine. rewrite Hr, Haf. split_and!; [done..|].
    destruct (Hcodec (sideBySide ab c)) as (j & Hj & Hwj & Hhj).
    exists (sideBySide ab c), j. split_and!; [done| | |].
    + by rewrite readImage_written.
    + simpl in *. lia.
    + simpl in *. lia.
  - (* turn *)
    apply Forall2_cons_inv_l in Hread as (a & imgs1 & Ha & Hread & ->).
    apply Forall2_cons_inv_l in Hread as (b & imgs2 & Hb & Hread & ->).
    apply Forall2_nil_inv_l in Hread as ->.
    apply Forall_cons in Hh as [Hha Hh].
    apply Forall_cons in Hh as [Hhb _].
    destruct (combineTwo_ok ["./output/flop.jpeg"; resource c3]
                "./output/turn.jpeg" w1 a b) as [Hr Haf];
      try (by apply Hre); try done; try lia.
    unfold combine. rewrite Hr, Haf. split_and!; [done..|].
    destruct (Hcodec (sideBySide a b)) as (j & Hj & Hwj & Hhj).
    exists (sideBySide a b), j. split_and!; [done| | |].
    + by rewrite readImage_written.
    + simpl in *. lia.
    + simpl in *. lia.
  - (* river *)
    apply Forall2_cons_inv_l in Hread as (a & imgs1 & Ha & Hread & ->).
    apply Forall2_cons_inv_l in Hread as (b & imgs2 & Hb & Hread & ->).
    apply Forall2_cons_inv_l in Hread as (c & imgs3 & Hc & Hread & ->).
    apply Forall2_nil_inv_l in Hread as ->.
    apply Forall_cons in Hh as [Hha Hh].
    apply Forall_cons in Hh as [Hhb Hh].
    apply Forall_cons in Hh as [Hhc _].
    destruct (Hcodec (sideBySide a b)) as (ab & Hab & Hwab & Hhab).
    destruct (combineThree_ok "./output/flop.jpeg" (resource c3)
                (resource c4) "./output/river.jpeg" w1 a b c ab)
      as [Hr Haf];
      [by apply Hre|by apply Hre|by apply Hre|by apply (Hne 2)|done
      |simpl in *; lia|simpl in *; lia|done|].
    unfold combine. rewrite Hr, Haf. split_and!; [done..|].
    destruct (Hcodec (sideBySide ab c)) as (j & Hj & Hwj & Hhj).
    exists (sideBySide ab c), j. split_and!; [done| | |].
    + by rewrite readImage_written.
    + simpl in *. lia.
    + simpl in *. lia.
Qed.

(** C5, as the code has it.  When a file that the stage opens (an asset
    of the flop; [./output/flop.jpeg] or a new asset of the turn or the
    river), a file other than the one the stage writes, does not open as
    an image, the promise rejects.  When that file
    is the first or the second the stage opens, it rejects with
    [ImageOpenError] and no file is written.  When it is the third, and
    the first two images combine and are written, the promise rejects with
    [ImageOpenError] after that write: the output path then holds the
    image of the first two. *)
Theorem missing_asset_rejects (cards sources : list string) (out q : string)
    (i : nat) w :
  stage cards = Some (sources, out) →
  sources !! i = Some q →
  apart q out →
  readImage w q = None →
  let done_ := createBoardImage cards w in
  (∃ e, value done_ = Some (Rejected e))
  ∧ (i < 2 →
       value done_ = Some (Rejected ImageOpenError)
       ∧ files (final done_) = files w)
  ∧ (∀ a b,
       sources !! 0 ≫= readImage w = Some a →
       sources !! 1 ≫= readImage w = Some b →
       height b ≤ height a →
       writable (dirs (ensureOutput w).1) out = true →
       value done_ = Some (Rejected ImageOpenError)
       ∧ files (final done_)
         = <[out := encode (sideBySide a b)]> (files w)).
Proof.
  intros Hs Hq Hap Hnone done_. subst done_.
  rewrite createBoardImage_stage, Hs. cbn [value final].
  pose proof (apart_ne _ _ Hap) as Hne.
  assert (length sources = 2 ∧ combine sources out = combineTwo sources out
          ∨ length sources = 3
            ∧ combine sources out = combineThree sources out) as Hshape.
  { unfold stage in Hs.
    destruct cards as [|c0 [|c1 [|c2 [|c3 [|c4 [|c5 cards]]]]]];
      simpl in Hs; try done; injection Hs as <- <-; auto. }
  rewrite <- (files_ensureOutput w).
  rewrite <- (readImage_ensureOutput w) in Hnone.
  assert (∀ k, sources !! k ≫= readImage (ensureOutput w).1
               = sources !! k ≫= readImage w) as Hre.
  { intros k. apply reads_agree. intros; apply readImage_ensureOutput. }
  setoid_rewrite <- Hre.
  revert Hnone. generalize (ensureOutput w).1 as w1. intros w1 Hnone.
  assert (i < length sources) as Hi by (by eapply lookup_lt_Some).
  destruct Hshape as [[Hlen ->]|[Hlen ->]].
  - destruct (combineTwo_missing sources out q i w1) as [Hr Ha];
      [done|lia|done|].
    rewrite Hr, Ha. split_and!; [by eauto|done|].
    intros a b H0 H1 _ _. exfalso.
    destruct i as [|[|i]]; [| |lia].
    + by rewrite Hq in H0; simpl in H0; rewrite Hnone in H0.
    + by rewrite Hq in H1; simpl in H1; rewrite Hnone in H1.
  - destruct (decide (i < 2)) as [Hlt|Hge].
    + destruct (combineThree_missing_pair sources out q i w1) as [Hr Ha];
        [done..|].
      rewrite Hr, Ha. split_and!; [by eauto|done|].
      intros a b H0 H1 _ _. exfalso.
      destruct i as [|[|i]]; [| |lia].
      * by rewrite Hq in H0; simpl in H0; rewrite Hnone in H0.
      * by rewrite Hq in H1; simpl in H1; rewrite Hnone in H1.
    + assert (i = 2) as -> by lia.
      destruct (combineThree_missing_last sources out q w1) as [e Hr];
        [done..|].
      split_and!; [by rewrite Hr; eauto|lia|].
      intros a b H0 H1 Hh Hw.
      destruct (combineThree_partial sources out q w1 a b) as [Hr' Ha'];
        [done..|].
      by rewrite Hr', Ha'.
Qed.

(** C4, as the code has it.  [combineThree] on three files is
    [combineTwo] on the first two, writing the output path, followed, when
    that resolved, by [combineTwo] on the output path and the third file,
    writing the same path; a rejection of the first is the result.  When
    the third path names a file other than the output file, the three
    files open as
    images of one height with buffers of their dimensions, the write is
    accepted and the first composite is read back as written, the promise
    resolves and the file at the output path holds the three images side
    by side, as the direct concatenation of their rows gives them. *)
Theorem combineThree_sequential (f0 f1 f2 out : string) w :
  (let s1 := combineTwo [f0; f1] out w in
   combineThree [f0; f1; f2] out w
   = match result s1 with
     | Resolved _ =>
         let s2 := combineTwo [out; f2] out (after s1) in
         Settled (result s2) (after s2) (trace s1 ++ trace s2)
     | Rejected e => Settled (Rejected e) (after s1) (trace s1)
     end)
  ∧ ∀ a b c,
      apart f2 out →
      readImage w f0 = Some a → readImage w f1 = Some b →
      readImage w f2 = Some c →
      wf_image a → wf_image b → wf_image c →
      height b = height a → height c = height a →
      writable (dirs w) out = true →
      decode (encode (sideBySide a b)) = Some (sideBySide a b) →
      result (combineThree [f0; f1; f2] out w) = Resolved out
      ∧ files (after (combineThree [f0; f1; f2] out w))
        = <[out := encode (hconcat3 a b c)]> (files w).
Proof.
  split; [done|].
  intros a b c Hne%apart_ne H0 H1 H2 Ha Hb Hc Hhb Hhc Hw Hcodec.
  destruct (combineThree_ok f0 f1 f2 out w a b c (sideBySide a b))
    as [Hr Haf]; try done; try (simpl; lia).
  rewrite Hr, Haf. by rewrite sideBySide_hconcat3.
Qed.

End Properties.

(** * The properties on the reference environment *)

Import Ref.

Example dirname_output : dirname "./output/flop.jpeg" = "./output".
Proof. reflexivity. Qed.

(** The flop on a fresh checkout: [./output] is made, then the two
    combinations make six calls each; the file is three cards wide. *)
Example flop_on_fresh :
  let done_ := createBoardImage (E := env) flop_cards fresh in
  value done_ = Some (Resolved "./output/flop.jpeg")
  ∧ length (calls done_) = 13
  ∧ files (final done_) !! "./output/flop.jpeg"
    = Some (hconcat3 (card 2) (card 9) (card 13)).
Proof. intros done_. split_and!; vm_compute; reflexivity. Qed.

(** The turn without a flop file cannot open its first input. *)
Example turn_on_fresh :
  let done_ := createBoardImage (E := env) turn_cards fresh in
  value done_ = Some (Rejected ImageOpenError)
  ∧ calls done_
    = [EvMkdir "./output"; EvOpen (Some "./output/flop.jpeg") false].
Proof. intros done_. split_and!; vm_compute; reflexivity. Qed.

(** A second image higher than the first does not fit the canvas. *)
Example taller_second_image :
  let w := World (E := env)
             (<["a.jpeg" := blank 2 3 white]>
              (<["b.jpeg" := blank 2 4 white]> ∅)) ∅ in
  let s := combineTwo (E := env) ["a.jpeg"; "b.jpeg"] "out.jpeg" w in
  result s = Rejected PasteError
  ∧ files (after s) !! "out.jpeg" = None
  ∧ length (trace s) = 5.
Proof. intros w s. split_and!; vm_compute; reflexivity. Qed.

(** Spellings of one file are not [apart]; the assets of the cards are
    apart from the files of the stages. *)
Example same_file_two_spellings :
  canon "./out.jpeg" = canon "out.jpeg"
  ∧ ¬ apart "./out.jpeg" "out.jpeg"
  ∧ canon (resource "../output/river") = None
  ∧ ¬ apart (resource "../output/river") "./output/river.jpeg"
  ∧ ¬ is_asset "../output/flop"
  ∧ apart (resource "2h") "./output/flop.jpeg".
Proof.
  split_and!; [vm_compute; reflexivity|vm_compute; tauto
              |vm_compute; reflexivity|vm_compute; tauto| |].
  - intros H. apply Forall_cons in H as [H _]. vm_compute in H. exact H.
  - vm_compute. discriminate.
Qed.

Lemma wf_card n : wf_image (card n).
Proof. split; [reflexivity|]. by repeat constructor. Qed.

Lemma river_from_flop_witness :
  length river_cards = 5
  ∧ value (createBoardImage (E := env) river_cards after_turn)
    = Some (result (combineThree (E := env)
                      ["./output/flop.jpeg"; resource "7c"; resource "Ah"]
                      "./output/river.jpeg" after_turn)).
Proof.
  split; [reflexivity|].
  destruct (river_from_flop (E := env) river_cards after_turn)
    as (c3 & c4 & H3 & H4 & ->); [reflexivity|].
  injection H3 as <-. injection H4 as <-.
  vm_compute. reflexivity.
Defined.

(** After the flop and the turn, the river is the flop file with the two
    new cards, five cards wide; the combination on the turn file would be
    six cards wide. *)
Lemma river_not_from_turn :
  let done_ := createBoardImage (E := env) river_cards after_turn in
  let s := combineThree (E := env)
             ["./output/turn.jpeg"; resource "7c"; resource "Ah"]
             "./output/river.jpeg" after_turn in
  width <$> files (final done_) !! "./output/river.jpeg" = Some 10
  ∧ width <$> files (after s) !! "./output/river.jpeg" = Some 12
  ∧ final done_ ≠ after s.
Proof.
  intros done_ s.
  assert (width <$> files (final done_) !! "./output/river.jpeg" = Some 10)
    as H1 by (vm_compute; reflexivity).
  assert (width <$> files (after s) !! "./output/river.jpeg" = Some 12)
    as H2 by (vm_compute; reflexivity).
  split_and!; [done..|].
  intros Heq. rewrite Heq in H1. congruence.
Qed.

Lemma other_counts_undefined_witness :
  length ["2h"; "9s"] ≠ 3 ∧ length ["2h"; "9s"] ≠ 4
  ∧ length ["2h"; "9s"] ≠ 5
  ∧ value (createBoardImage (E := env) ["2h"; "9s"] fresh) = None.
Proof.
  split_and!; [simpl; lia..|].
  apply (other_counts_undefined (E := env) ["2h"; "9s"] fresh); simpl; lia.
Defined.

(** No cards, one card, two cards, six cards: [undefined], not a
    rejection with [InvalidCardCount]. *)
Lemma no_InvalidCardCount :
  value (createBoardImage (E := env) [] fresh)
    ≠ Some (Rejected InvalidCardCount)
  ∧ value (createBoardImage (E := env) ["2h"] fresh)
    ≠ Some (Rejected InvalidCardCount)
  ∧ value (createBoardImage (E := env) ["2h"; "9s"] fresh)
    ≠ Some (Rejected InvalidCardCount)
  ∧ value (createBoardImage (E := env)
             ["2h"; "9s"; "Kd"; "7c"; "Ah"; "2h"] fresh)
    ≠ Some (Rejected InvalidCardCount).
Proof. split_and!; vm_compute; discriminate. Qed.

Lemma combineTwo_canvas_witness :
  readImage fresh "resources/2h.jpeg" = Some (card 2)
  ∧ readImage fresh "resources/9s.jpeg" = Some (card 9)
  ∧ height (card 9) ≤ height (card 2)
  ∧ result (combineTwo (E := env)
              ["resources/2h.jpeg"; "resources/9s.jpeg"] "board.jpeg" fresh)
    = Resolved "board.jpeg".
Proof.
  split_and!; [reflexivity|reflexivity|simpl; lia|].
  apply (combineTwo_canvas (E := env) "resources/2h.jpeg"
           "resources/9s.jpeg" "board.jpeg" fresh (card 2) (card 9));
    [reflexivity|reflexivity|simpl; lia|reflexivity].
Defined.

Lemma combineThree_sequential_witness :
  apart "resources/Kd.jpeg" "board.jpeg"
  ∧ wf_image (card 2) ∧ wf_image (card 9) ∧ wf_image (card 13)
  ∧ writable (Env := env) (dirs fresh) "board.jpeg" = true
  ∧ result (combineThree (E := env)
              ["resources/2h.jpeg"; "resources/9s.jpeg"; "resources/Kd.jpeg"]
              "board.jpeg" fresh)
    = Resolved "board.jpeg"
  ∧ files (after (combineThree (E := env)
              ["resources/2h.jpeg"; "resources/9s.jpeg"; "resources/Kd.jpeg"]
              "board.jpeg" fresh))
    = <["board.jpeg" := hconcat3 (card 2) (card 9) (card 13)]> (files fresh).
Proof.
  destruct (combineThree_sequential (E := env) "resources/2h.jpeg"
              "resources/9s.jpeg" "resources/Kd.jpeg" "board.jpeg" fresh)
    as [_ H].
  assert (apart "resources/Kd.jpeg" "board.jpeg") as Hap
    by (vm_compute; discriminate).
  destruct (H (card 2) (card 9) (card 13)) as [Hr Hf];
    [exact Hap
    |first [apply wf_card | vm_compute; reflexivity]..|].
  split_and!; [exact Hap|apply wf_card..|reflexivity|exact Hr|exact Hf].
Defined.

(** The third file is the output path: the result is the first two
    images twice, not the three images side by side. *)
Lemma combineThree_aliased :
  let s := combineThree (E := env) ["a.jpeg"; "b.jpeg"; "out.jpeg"]
             "out.jpeg" aliased in
  readImage aliased "a.jpeg" = Some (card 2)
  ∧ readImage aliased "b.jpeg" = Some (card 9)
  ∧ readImage aliased "out.jpeg" = Some (card 13)
  ∧ result s = Resolved "out.jpeg"
  ∧ width <$> files (after s) !! "out.jpeg" = Some 8
  ∧ files (after s) !! "out.jpeg"
    ≠ Some (hconcat3 (card 2) (card 9) (card 13)).
Proof.
  intros s. split_and!; try (vm_compute; reflexivity).
  vm_compute. discriminate.
Qed.

Lemma missing_asset_rejects_witness :
  stage ["2h"; "9s"; "XX"]
  = Some ([resource "2h"; resource "9s"; resource "XX"], "./output/flop.jpeg")
  ∧ apart (resource "XX") "./output/flop.jpeg"
  ∧ readImage fresh (resource "XX") = None
  ∧ ∃ e, value (createBoardImage (E := env) ["2h"; "9s"; "XX"] fresh)
         = Some (Rejected e).
Proof.
  assert (apart (resource "XX") "./output/flop.jpeg") as Hap
    by (vm_compute; discriminate).
  split_and!; [reflexivity|exact Hap|reflexivity|].
  apply (missing_asset_rejects (E := env) ["2h"; "9s"; "XX"]
           [resource "2h"; resource "9s"; resource "XX"]
           "./output/flop.jpeg" (resource "XX") 2 fresh);
    [reflexivity|reflexivity|exact Hap|reflexivity].
Defined.

(** A flop whose third asset is missing rejects with [ImageOpenError]
    after it wrote the first two cards to [./output/flop.jpeg]; a turn
    whose first card has no asset resolves, as the card is not read. *)
Lemma missing_asset_writes :
  let done_ := createBoardImage (E := env) ["2h"; "9s"; "XX"] fresh in
  let turn := createBoardImage (E := env) ["XX"; "9s"; "Kd"; "7c"]
                after_flop in
  readImage fresh (resource "XX") = None
  ∧ value done_ = Some (Rejected ImageOpenError)
  ∧ files fresh !! "./output/flop.jpeg" = None
  ∧ width <$> files (final done_) !! "./output/flop.jpeg" = Some 4
  ∧ value turn = Some (Resolved "./output/turn.jpeg").
Proof. intros done_ turn. split_and!; vm_compute; reflexivity. Qed.

Lemma board_file_dimensions_witness :
  stage flop_cards
  = Some ([resource "2h"; resource "9s"; resource "Kd"], "./output/flop.jpeg")
  ∧ Forall (λ q, apart q "./output/flop.jpeg")
      [resource "2h"; resource "9s"; resource "Kd"]
  ∧ writable (Env := env) (dirs (ensureOutput fresh).1) "./output/flop.jpeg"
    = true
  ∧ value (createBoardImage (E := env) flop_cards fresh)
    = Some (Resolved "./output/flop.jpeg").
Proof.
  assert (Forall (λ q, apart q "./output/flop.jpeg")
            [resource "2h"; resource "9s"; resource "Kd"]) as Hap
    by (repeat constructor; vm_compute; discriminate).
  split_and!; [reflexivity|exact Hap|vm_compute; reflexivity|].
  apply (board_file_dimensions (E := env) flop_cards
           [resource "2h"; resource "9s"; resource "Kd"]
           "./output/flop.jpeg" [card 2; card 9; card 13] 3 fresh).
  - reflexivity.
  - exact Hap.
  - repeat constructor.
  - repeat constructor.
  - vm_compute; reflexivity.
  - intros i. exists i. repeat split.
Defined.

Lemma trailing_cards_only_witness :
  drop 3 turn_cards = drop 3 ["Ah"; "Ah"; "Ah"; "7c"]
  ∧ createBoardImage (E := env) turn_cards after_flop
    = createBoardImage (E := env) ["Ah"; "Ah"; "Ah"; "7c"] after_flop.
Proof.
  split; [reflexivity|].
  apply (trailing_cards_only (E := env)); [reflexivity|by left|reflexivity].
Defined.

Lemma resolves_with_outputFile_witness :
  result (combineTwo (E := env)
            ["resources/2h.jpeg"; "resources/9s.jpeg"; "resources/Kd.jpeg"]
            "board.jpeg" fresh) = Resolved "board.jpeg"
  ∧ result (combineThree (E := env)
            ["resources/2h.jpeg"; "resources/9s.jpeg"; "resources/Kd.jpeg"]
            "board.jpeg" fresh) = Resolved "board.jpeg"
  ∧ ∃ img, files (after (combineThree (E := env)
            ["resources/2h.jpeg"; "resources/9s.jpeg"; "resources/Kd.jpeg"]
            "board.jpeg" fresh)) !! "board.jpeg" = Some img.
Proof.
  split_and!; [vm_compute; reflexivity..|].
  apply (resolves_with_outputFile (E := env)
           ["resources/2h.jpeg"; "resources/9s.jpeg"; "resources/Kd.jpeg"]
           "board.jpeg" "board.jpeg" fresh).
  vm_compute; reflexivity.
Defined.

Lemma unaliased_turn_cards : unaliased turn_cards.
Proof.
  intros sources out Hs. vm_compute in Hs. injection Hs as <- <-.
  repeat constructor; vm_compute; discriminate.
Qed.

Lemma rerun_same_output_witness :
  unaliased turn_cards
  ∧ stage turn_cards
    = Some (["./output/flop.jpeg"; resource "7c"], "./output/turn.jpeg")
  ∧ dirs (ensureOutput after_turn).1 = dirs (ensureOutput after_flop).1
  ∧ value (createBoardImage (E := env) turn_cards after_turn)
    = value (createBoardImage (E := env) turn_cards after_flop)
  ∧ value (createBoardImage (E := env) turn_cards
             (final (createBoardImage (E := env) turn_cards after_flop)))
    = value (createBoardImage (E := env) turn_cards after_flop).
Proof.
  assert (dirs (ensureOutput after_turn).1 = dirs (ensureOutput after_flop).1)
    as Hd by (vm_compute; reflexivity).
  destruct (rerun_same_output (E := env) turn_cards after_flop) as [Hre H].
  split_and!; [exact unaliased_turn_cards|reflexivity|exact Hd| |].
  - apply (H after_turn ["./output/flop.jpeg"; resource "7c"]
             "./output/turn.jpeg");
      [reflexivity|exact Hd|vm_compute; reflexivity|].
    intros q Hq.
    apply elem_of_cons in Hq as [->|Hq]; [vm_compute; reflexivity|].
    apply elem_of_cons in Hq as [->|Hq]; [vm_compute; reflexivity|].
    destruct (proj1 (elem_of_nil q) Hq).
  - exact (proj1 (Hre unaliased_turn_cards)).
Defined.

(** * Further properties of the combinations *)

Section Further.
Context `{E : Env}.

Implicit Types (w v : world) (a b : image).

(** Case analysis on statements about a settled outcome. *)
Ltac settle :=
  repeat match goal with
  | |- _ ↔ _ => split; intros
  | H : _ ∨ _ |- _ => destruct H
  | H : ∃ _, _ |- _ => destruct H
  | H : _ ∧ _ |- _ => destruct H
  end;
  simplify_eq; try done; try lia; eauto 10.

(** Membership of a number in a list of numbers. *)
Ltac member :=
  repeat first [apply list_elem_of_here | apply list_elem_of_further].

(** ** The outcomes of [combineTwo] *)

(** X1.  [combineTwo] settles in one of four ways, each decided by the two
    files and the file system: it rejects with [ImageOpenError] exactly
    when one of the two files does not open as an image, with
    [PasteError] exactly when both open and the second image is higher
    than the first (widths never matter, the canvas is as wide as both),
    with [WriteError] exactly when the images fit and the write is
    refused, and it resolves, with [outputFile], in the remaining case. *)
Theorem combineTwo_outcomes (fs : list string) (out : string) w :
  let r := result (combineTwo fs out w) in
  let i0 := fs !! 0 ≫= readImage w in
  let i1 := fs !! 1 ≫= readImage w in
  (r = Rejected ImageOpenError ↔ i0 = None ∨ i1 = None)
  ∧ (r = Rejected PasteError
     ↔ ∃ a b, i0 = Some a ∧ i1 = Some b ∧ height a < height b)
  ∧ (r = Rejected WriteError
     ↔ ∃ a b, i0 = Some a ∧ i1 = Some b ∧ height b ≤ height a
         ∧ writable (dirs w) out = false)
  ∧ (r = Resolved out
     ↔ ∃ a b, i0 = Some a ∧ i1 = Some b ∧ height b ≤ height a
         ∧ writable (dirs w) out = true)
  ∧ (r = Rejected ImageOpenError ∨ r = Rejected PasteError
     ∨ r = Rejected WriteError ∨ r = Resolved out).
Proof.
  intros r i0 i1. subst r i0 i1.
  destruct (fs !! 0 ≫= readImage w) as [a|] eqn:H0.
  2: { rewrite combineTwo_open0 by done. simpl. split_and!; settle. }
  destruct (fs !! 1 ≫= readImage w) as [b|] eqn:H1.
  2: { rewrite (combineTwo_open1 _ _ _ a) by done. simpl.
       split_and!; settle. }
  rewrite (combineTwo_opened _ _ _ a b) by done.
  destruct (decide (height b ≤ height a)) as [Hh|Hh];
    [destruct (writable (dirs w) out) eqn:Hw
    |assert (height a < height b) by lia];
    simpl; split_and!; settle.
Qed.

(** X2.  [combineTwo] writes as its last step and only once both images
    are open and the second fits.  When it rejects with [ImageOpenError]
    or [PasteError] the file system is as it was.  When the write is
    refused, the directories and every file other than the one at
    [outputFile] are as they were.  When it resolves, the file at
    [outputFile] is the encoded canvas of the two images it opened,
    nothing else changed, and that write was its last call. *)
Theorem combineTwo_all_or_nothing (fs : list string) (out : string) w :
  let s := combineTwo fs out w in
  match result s with
  | Rejected WriteError =>
      dirs (after s) = dirs w
      ∧ (∀ q, apart q out → files (after s) !! q = files w !! q)
  | Rejected _ => after s = w
  | Resolved _ =>
      ∃ a b, fs !! 0 ≫= readImage w = Some a
        ∧ fs !! 1 ≫= readImage w = Some b
        ∧ after s
          = World (<[out := encode (sideBySide a b)]> (files w)) (dirs w)
        ∧ last (trace s) = Some (EvWrite (sideBySide a b) out true)
  end.
Proof.
  intros s. subst s.
  destruct (fs !! 0 ≫= readImage w) as [a|] eqn:H0;
    [|by rewrite combineTwo_open0].
  destruct (fs !! 1 ≫= readImage w) as [b|] eqn:H1;
    [|by rewrite (combineTwo_open1 _ _ _ a)].
  rewrite (combineTwo_opened _ _ _ a b) by done.
  destruct (decide (height b ≤ height a)); [|done].
  destruct (writable (dirs w) out).
  - simpl. by exists a, b.
  - cbn [result after]. split; [done|].
    intros q Hq%apart_ne. by apply files_touch_ne.
Qed.

(** ** Images of different heights *)

Lemma getPixel_blank_cases n h col x y :
  getPixel (blank n h col) x y
  = if decide (x < n ∧ y < h) then Some col else None.
Proof.
  destruct (decide (x < n ∧ y < h)) as [[Hx Hy]|Hout].
  - by apply getPixel_blank.
  - unfold getPixel, blank; simpl.
    destruct (decide (y < h)) as [Hy|Hy].
    + rewrite lookup_replicate_2 by done; simpl.
      apply lookup_replicate_None. lia.
    + rewrite (proj1 (lookup_replicate_None _ _ _)) by lia. done.
Qed.

(** X3.  A second image lower than the first is accepted: the canvas has the
    extent of both widths by the first height, and below the second image
    it keeps the white it was created with. *)
Theorem shorter_second_padded (fs : list string) (out : string) w a b :
  fs !! 0 ≫= readImage w = Some a →
  fs !! 1 ≫= readImage w = Some b →
  height b ≤ height a →
  writable (dirs w) out = true →
  let s := combineTwo fs out w in
  result s = Resolved out
  ∧ files (after s) !! out = Some (encode (sideBySide a b))
  ∧ (∀ x y, is_Some (getPixel (sideBySide a b) x y)
            ↔ x < width a + width b ∧ y < height a)
  ∧ (∀ x y, width a ≤ x < width a + width b →
            height b ≤ y < height a →
            getPixel (sideBySide a b) x y = Some white).
Proof.
  intros H0 H1 Hh Hw s. subst s.
  destruct (combineTwo_ok fs out w a b) as [Hr Ha]; [done..|].
  rewrite Hr, Ha. simpl. rewrite lookup_insert_eq.
  split_and!; [done..| |].
  - intros x y. unfold sideBySide.
    rewrite !getPixel_pasted, getPixel_blank_cases.
    destruct (decide (x < width a + width b ∧ y < height a)); simpl.
    + split; [done|]. eauto.
    + split; [by intros [? ?]|done].
  - intros x y Hx Hy. unfold sideBySide.
    rewrite !getPixel_pasted, getPixel_blank by lia. simpl.
    unfold covered.
    by rewrite !bool_decide_eq_false_2 by lia.
Qed.

(** ** What a combination leaves on the file system *)


Lemma combine_frame (fs : list string) out w q :
  q ≠ out → files (after (combine fs out w)) !! q = files w !! q.
Proof.
  intros Hne. destruct (combine_footprint fs out w) as (f & _ & Hv).
  rewrite (combine_after _ _ _ _ Hv). by apply files_touch_ne.
Qed.

Lemma combine_dirs (fs : list string) out w :
  dirs (after (combine fs out w)) = dirs w.
Proof.
  destruct (combine_footprint fs out w) as (f & _ & Hv).
  by rewrite (combine_after _ _ _ _ Hv).
Qed.

(** X5.  [createBoardImage] changes no file but the one of its stage: the
    asset of a card whose path names none of the three output files is
    never written, and any path that names a file other than the one the
    stage writes reads as before (for the turn the flop file, for the
    river the flop and the turn file; after a call with another number
    of cards, every path). *)
Theorem only_stage_path_changes (cards : list string) w :
  let done_ := createBoardImage cards w in
  (∀ c, is_asset c →
        files (final done_) !! resource c = files w !! resource c)
  ∧ (∀ q, (∀ sources out, stage cards = Some (sources, out) → apart q out) →
          files (final done_) !! q = files w !! q).
Proof.
  intros done_. subst done_. rewrite createBoardImage_stage.
  assert (∀ q, (∀ sources out, stage cards = Some (sources, out) →
                  apart q out) →
    files (final
      match stage cards with
      | Some (sources, out) =>
          let s := combine sources out (ensureOutput w).1 in
          Completed (Some (result s)) (after s)
            ((ensureOutput w).2 ++ trace s)
      | None => Completed None (ensureOutput w).1 (ensureOutput w).2
      end) !! q = files w !! q) as Hframe.
  { intros q Hq. destruct (stage cards) as [[sources out]|] eqn:Hs; simpl.
    - rewrite combine_frame by (apply apart_ne; eauto).
      by rewrite files_ensureOutput.
    - by rewrite files_ensureOutput. }
  split; [|done].
  intros c Hc. apply Hframe. intros sources out Hs.
  apply (proj1 (Forall_forall _ _) Hc). by eapply stage_out.
Qed.

(** ** The output directory and the number of calls *)

Lemma mkdirs_app (tr1 tr2 : list event) :
  mkdirs (tr1 ++ tr2) = mkdirs tr1 ++ mkdirs tr2.
Proof. apply omap_app. Qed.

(** The trace of [combineTwo]: no directory is made; one or two calls
    when an image does not open, five when the second paste fails, six
    when the write is refused or accepted. *)
Lemma combineTwo_trace (fs : list string) out w :
  mkdirs (trace (combineTwo fs out w)) = []
  ∧ match result (combineTwo fs out w) with
    | Resolved _ => length (trace (combineTwo fs out w)) = 6
    | Rejected ImageOpenError =>
        1 ≤ length (trace (combineTwo fs out w)) ≤ 2
    | Rejected PasteError => length (trace (combineTwo fs out w)) = 5
    | Rejected WriteError => length (trace (combineTwo fs out w)) = 6
    | Rejected _ => False
    end.
Proof.
  destruct (fs !! 0 ≫= readImage w) as [a|] eqn:H0.
  2: { rewrite combineTwo_open0 by done. simpl. split; [done|lia]. }
  destruct (fs !! 1 ≫= readImage w) as [b|] eqn:H1.
  2: { rewrite (combineTwo_open1 _ _ _ a) by done. simpl.
       split; [done|lia]. }
  rewrite (combineTwo_opened _ _ _ a b) by done.
  destruct (decide (height b ≤ height a));
    [destruct (writable (dirs w) out)|];
    unfold opened_calls; simpl; (split; [done|]); first [done | lia].
Qed.

Lemma combineThree_trace (fs : list string) out w :
  mkdirs (trace (combineThree fs out w)) = []
  ∧ match result (combineThree fs out w) with
    | Resolved _ => length (trace (combineThree fs out w)) = 12
    | Rejected ImageOpenError =>
        length (trace (combineThree fs out w)) ∈ [1; 2; 7; 8]
    | Rejected PasteError =>
        length (trace (combineThree fs out w)) ∈ [5; 11]
    | Rejected WriteError =>
        length (trace (combineThree fs out w)) ∈ [6; 12]
    | Rejected _ => False
    end.
Proof.
  unfold combineThree.
  pose proof (combineTwo_trace (take 2 fs) out w) as [Hm1 Hl1].
  destruct (result (combineTwo (take 2 fs) out w)) as [x|e] eqn:Hr1.
  - rewrite (then_resolved _ _ _ x) by done. cbn [result after trace].
    pose proof (combineTwo_trace (out :: option_list (fs !! 2)) out
                  (after (combineTwo (take 2 fs) out w))) as [Hm2 Hl2].
    rewrite mkdirs_app, Hm1, Hm2, length_app, Hl1. split; [done|].
    destruct (result (combineTwo (out :: option_list (fs !! 2)) out _))
      as [y|[]]; try done; [by rewrite Hl2| |rewrite Hl2..]; [|member..].
    assert (length (trace (combineTwo (out :: option_list (fs !! 2)) out
              (after (combineTwo (take 2 fs) out w)))) = 1
            ∨ length (trace (combineTwo (out :: option_list (fs !! 2)) out
              (after (combineTwo (take 2 fs) out w)))) = 2)
      as [->| ->] by lia; member.
  - rewrite (then_rejected _ _ _ e) by done. cbn [result after trace].
    split; [done|]. destruct e; try done; [|rewrite Hl1; member..].
    assert (length (trace (combineTwo (take 2 fs) out w)) = 1
            ∨ length (trace (combineTwo (take 2 fs) out w)) = 2)
      as [->| ->] by lia; member.
Qed.

(** X6.  After a call of [createBoardImage], whatever the cards, something
    named [./output] exists.  The directory is made at most once, before
    any image is opened, and only when nothing of that name was there; no
    other directory is made and none is removed. *)
Theorem output_directory_ensured (cards : list string) w :
  let done_ := createBoardImage cards w in
  existsSync "./output" (final done_) = true
  ∧ dirs (final done_)
    = (if existsSync "./output" w then dirs w
       else {["./output"]} ∪ dirs w)
  ∧ mkdirs (calls done_)
    = (if existsSync "./output" w then [] else ["./output"])
  ∧ (existsSync "./output" w = false →
       head (calls done_) = Some (EvMkdir "./output")).
Proof.
  intros done_. subst done_. rewrite createBoardImage_stage.
  pose proof (existsSync_ensureOutput w) as Hex.
  assert (dirs (ensureOutput w).1
          = (if existsSync "./output" w then dirs w
             else {["./output"]} ∪ dirs w)) as Hd.
  { unfold ensureOutput. by destruct (existsSync "./output" w). }
  assert (mkdirs (ensureOutput w).2
          = (if existsSync "./output" w then [] else ["./output"])) as Hm.
  { unfold ensureOutput. by destruct (existsSync "./output" w). }
  assert (existsSync "./output" w = false →
          ∀ tr, head ((ensureOutput w).2 ++ tr)
                = Some (EvMkdir "./output")) as Hh.
  { unfold ensureOutput. by intros ->. }
  destruct (stage cards) as [[sources out]|] eqn:Hs; simpl.
  - destruct (combine_footprint sources out (ensureOutput w).1)
      as (f & _ & Hv).
    split_and!.
    + rewrite (combine_after _ _ _ _ Hv).
      apply existsSync_touch; [by eapply output_not_stage|done].
    + by rewrite combine_dirs.
    + rewrite mkdirs_app, Hm.
      assert (mkdirs (trace (combine sources out (ensureOutput w).1)) = [])
        as ->; [|by rewrite app_nil_r].
      unfold combine.
      destruct sources as [|? [|? [|? ?]]];
        apply combineThree_trace || apply combineTwo_trace.
    + intros Hno. by apply Hh.
  - split_and!; [done..|].
    intros Hno. specialize (Hh Hno []). by rewrite app_nil_r in Hh.
Qed.

(** X7.  The number of calls tells where a combination stopped.  [combineTwo]
    makes one or two calls when an image does not open, five when the
    second paste fails and six when the write is refused or accepted;
    [combineThree] makes twelve when it resolves, and after a rejection
    as many as the failing step of its first or second half gives; no
    other error is ever the result.  [createBoardImage] makes at most
    thirteen calls. *)
Theorem call_counts (fs cards : list string) (out : string) w :
  match result (combineTwo fs out w) with
  | Resolved _ => length (trace (combineTwo fs out w)) = 6
  | Rejected ImageOpenError => 1 ≤ length (trace (combineTwo fs out w)) ≤ 2
  | Rejected PasteError => length (trace (combineTwo fs out w)) = 5
  | Rejected WriteError => length (trace (combineTwo fs out w)) = 6
  | Rejected _ => False
  end
  ∧ match result (combineThree fs out w) with
    | Resolved _ => length (trace (combineThree fs out w)) = 12
    | Rejected ImageOpenError =>
        length (trace (combineThree fs out w)) ∈ [1; 2; 7; 8]
    | Rejected PasteError =>
        length (trace (combineThree fs out w)) ∈ [5; 11]
    | Rejected WriteError =>
        length (trace (combineThree fs out w)) ∈ [6; 12]
    | Rejected _ => False
    end
  ∧ length (calls (createBoardImage cards w)) ≤ 13.
Proof.
  split_and!; [apply combineTwo_trace|apply combineThree_trace|].
  rewrite createBoardImage_stage.
  assert (length (ensureOutput w).2 ≤ 1) as Hmade.
  { unfold ensureOutput. destruct (existsSync "./output" w); simpl; lia. }
  destruct (stage cards) as [[sources out']|]; simpl; [|lia].
  rewrite length_app.
  assert (length (trace (combine sources out' (ensureOutput w).1)) ≤ 12);
    [|lia].
  unfold combine.
  assert (∀ l, length (trace (combineThree l out' (ensureOutput w).1)) ≤ 12)
    as H3.
  { intros l.
    pose proof (combineThree_trace l out' (ensureOutput w).1) as [_ H].
    destruct (result (combineThree l out' (ensureOutput w).1)) as [y|[]];
      try done; try lia;
      repeat (apply elem_of_cons in H as [->|H]); try lia;
      by apply elem_of_nil in H. }
  destruct sources as [|f0 [|f1 [|f2 sources]]]; try apply H3.
  pose proof (combineTwo_trace [f0; f1] out' (ensureOutput w).1) as [_ H].
  destruct (result (combineTwo [f0; f1] out' (ensureOutput w).1))
    as [y|[]]; try done; lia.
Qed.

(** ** What a resolved promise tells *)

Lemma combineThree_resolved (fs : list string) out w x :
  result (combineThree fs out w) = Resolved x →
  ∃ a b ab c,
    fs !! 0 ≫= readImage w = Some a
    ∧ fs !! 1 ≫= readImage w = Some b
    ∧ decode (encode (sideBySide a b)) = Some ab
    ∧ (∀ q, fs !! 2 = Some q → q ≠ out → readImage w q = Some c)
    ∧ is_Some (fs !! 2)
    ∧ writable (dirs w) out = true
    ∧ x = out
    ∧ after (combineThree fs out w)
      = World (<[out := encode (sideBySide ab c)]> (files w)) (dirs w).
Proof.
  unfold combineThree.
  destruct (result (combineTwo (take 2 fs) out w)) as [y|e] eqn:Hr1.
  2: { by rewrite (then_rejected _ _ _ e). }
  rewrite (then_resolved _ _ _ y) by done. cbn [result after trace].
  apply combineTwo_resolved in Hr1 as (a & b & H0 & H1 & _ & Hw & _ & ->).
  rewrite lookup_take_lt in H0, H1 by lia.
  intros (ab & c & Hab & Hc & _ & _ & -> & ->)%combineTwo_resolved.
  exists a, b, ab, c.
  simpl in Hab. unfold readImage in Hab. simpl in Hab.
  rewrite lookup_insert_eq in Hab. simpl in Hab.
  split_and!; try done.
  - intros q Hq Hne. rewrite Hq in Hc. simpl in Hc.
    unfold readImage in *. simpl in Hc. by rewrite lookup_insert_ne in Hc.
  - destruct (fs !! 2); [eauto|done].
  - simpl. by rewrite insert_insert_eq.
Qed.

(** X8.  A promise of [createBoardImage] that resolves, on cards for
    which no file the stage reads is the file it writes, resolves with the
    path of the stage of that many cards; every file the stage reads
    opened as an image, the write was accepted, and the file at the path
    is the encoded canvas of those images: of the two for the turn, of
    the first composite as read back and the third for the flop and the
    river. *)
Theorem resolved_means_written (cards : list string) (x : string) w :
  unaliased cards →
  value (createBoardImage cards w) = Some (Resolved x) →
  ∃ sources imgs,
    stage cards = Some (sources, x)
    ∧ Forall2 (λ p i, readImage w p = Some i) sources imgs
    ∧ writable (dirs (ensureOutput w).1) x = true
    ∧ match imgs with
      | [a; b] =>
          files (final (createBoardImage cards w)) !! x
          = Some (encode (sideBySide a b))
      | [a; b; c] =>
          ∃ ab, decode (encode (sideBySide a b)) = Some ab
            ∧ files (final (createBoardImage cards w)) !! x
              = Some (encode (sideBySide ab c))
      | _ => False
      end.
Proof.
  intros Hun. rewrite createBoardImage_stage.
  destruct (stage cards) as [[sources out]|] eqn:Hs; [|done].
  cbn [value final]. intros [= Hr].
  assert (∀ k q, sources !! k = Some q → q ≠ out) as Hne.
  { intros k q Hq. eapply unaliased_ne; [done..|].
    by eapply list_elem_of_lookup_2. }
  assert (∀ p i, readImage (ensureOutput w).1 p = Some i →
            readImage w p = Some i) as Hre.
  { intros p i. by rewrite readImage_ensureOutput. }
  revert Hr Hre. generalize (ensureOutput w).1 as w1. intros w1 Hr Hre.
  unfold stage in Hs.
  destruct cards as [|c0 [|c1 [|c2 [|c3 [|c4 [|c5 cards]]]]]];
    simpl in Hs; try done; injection Hs as <- <-; unfold combine in *.
  - apply combineThree_resolved in Hr
      as (a & b & ab & c & H0 & H1 & Hab & H2 & _ & Hw & -> & ->).
    eexists _, [a; b; c]. split_and!; [done| |done|].
    + repeat constructor; [by apply Hre..|].
      apply Hre, H2; [done|]. by apply (Hne 2).
    + exists ab. simpl. by rewrite lookup_insert_eq.
  - apply combineTwo_resolved in Hr
      as (a & b & H0 & H1 & _ & Hw & -> & ->).
    eexists _, [a; b]. split_and!; [done| |done|].
    + repeat constructor; by apply Hre.
    + simpl. by rewrite lookup_insert_eq.
  - apply combineThree_resolved in Hr
      as (a & b & ab & c & H0 & H1 & Hab & H2 & _ & Hw & -> & ->).
    eexists _, [a; b; c]. split_and!; [done| |done|].
    + repeat constructor; [by apply Hre..|].
      apply Hre, H2; [done|]. by apply (Hne 2).
    + exists ab. simpl. by rewrite lookup_insert_eq.
Qed.

(** ** The stages one after the other *)

Lemma sideBySide_hconcat a b :
  wf_image a → wf_image b → height b = height a →
  sideBySide a b = hconcat a b.
Proof.
  intros Ha Hb Hh. unfold hconcat.
  rewrite <- (sideBySide_rows a b) by done. done.
Qed.

(** X9.  The river read from a file system on which the turn was never
    composed is the river read after the turn: with five cards of which
    the fourth and the fifth have assets that are files other than the
    turn file, running the turn first changes neither how the river's
    promise settles nor the file at [./output/river.jpeg]. *)
Theorem river_skips_turn (cards : list string) w :
  length cards = 5 →
  Forall (λ c, apart (resource c) "./output/turn.jpeg") (drop 3 cards) →
  let turn := createBoardImage (take 4 cards) w in
  let direct := createBoardImage cards w in
  let staged := createBoardImage cards (final turn) in
  value staged = value direct
  ∧ files (final staged) !! "./output/river.jpeg"
    = files (final direct) !! "./output/river.jpeg".
Proof.
  intros Hlen Hap turn direct staged. subst turn direct staged.
  destruct cards as [|c0 [|c1 [|c2 [|c3 [|c4 [|c5 cards]]]]]];
    simpl in Hlen; try lia.
  simpl in Hap.
  apply Forall_cons in Hap as [Hap3%apart_ne Hap].
  apply Forall_cons in Hap as [Hap4%apart_ne _].
  rewrite !createBoardImage_stage.
  pose proof (existsSync_ensureOutput w) as Hex.
  cbn [take stage fmap list_fmap].
  cbn [value final].
  destruct (combine_footprint ["./output/flop.jpeg"; resource c3]
              "./output/turn.jpeg" (ensureOutput w).1) as (fT & _ & HvT).
  rewrite (combine_after _ _ _ _ HvT).
  rewrite (ensureOutput_exists (touch _ _ _))
    by (by apply existsSync_touch).
  cbn [fst snd].
  destruct (combine_footprint
              ["./output/flop.jpeg"; resource c3; resource c4]
              "./output/river.jpeg" (ensureOutput w).1)
    as (f & _ & Hv).
  rewrite Hv, (combine_after _ _ _ _ Hv).
  - cbn [result after]. split; [done|].
    rewrite !files_touch_eq. f_equal. by apply files_touch_ne.
  - apply dirs_touch.
  - intros q Hq. apply readImage_touch.
    repeat (apply elem_of_cons in Hq as [->|Hq]);
      [done..|by apply elem_of_nil in Hq].
Qed.

Lemma is_asset_ne c out : is_asset c → out ∈ outputs → resource c ≠ out.
Proof.
  intros Hc Hout. apply apart_ne.
  by apply (proj1 (Forall_forall _ _) Hc).
Qed.

(** X10.  Flop, turn and river in this order, on five cards whose assets
    are files other than the three output files and open as images
    of one height with buffers of their dimensions, where written images
    are read back as written and the three writes are accepted: every
    promise resolves, and in the end the flop file holds the first three
    cards side by side, the turn file the flop image followed by the
    fourth card, and the river file the flop image followed by the fourth
    and the fifth card. *)
Theorem flop_turn_river (c0 c1 c2 c3 c4 : string)
    (i0 i1 i2 i3 i4 : image) (h : nat) w :
  Forall2 (λ c i, is_asset c ∧ readImage w (resource c) = Some i
                  ∧ wf_image i ∧ height i = h)
    [c0; c1; c2; c3; c4] [i0; i1; i2; i3; i4] →
  (∀ i, decode (encode i) = Some i) →
  Forall (λ p, writable (dirs (ensureOutput w).1) p = true)
    ["./output/flop.jpeg"; "./output/turn.jpeg"; "./output/river.jpeg"] →
  let flop := createBoardImage [c0; c1; c2] w in
  let turn := createBoardImage [c0; c1; c2; c3] (final flop) in
  let river := createBoardImage [c0; c1; c2; c3; c4] (final turn) in
  value flop = Some (Resolved "./output/flop.jpeg")
  ∧ value turn = Some (Resolved "./output/turn.jpeg")
  ∧ value river = Some (Resolved "./output/river.jpeg")
  ∧ files (final river) !! "./output/flop.jpeg"
    = Some (encode (hconcat3 i0 i1 i2))
  ∧ files (final river) !! "./output/turn.jpeg"
    = Some (encode (hconcat (hconcat3 i0 i1 i2) i3))
  ∧ files (final river) !! "./output/river.jpeg"
    = Some (encode (hconcat (hconcat (hconcat3 i0 i1 i2) i3) i4)).
Proof.
  intros Hcards Hcodec Hwr flop turn river. subst flop turn river.
  apply Forall2_cons in Hcards as [(A0 & R0 & W0 & E0) Hcards].
  apply Forall2_cons in Hcards as [(A1 & R1 & W1 & E1) Hcards].
  apply Forall2_cons in Hcards as [(A2 & R2 & W2 & E2) Hcards].
  apply Forall2_cons in Hcards as [(A3 & R3 & W3 & E3) Hcards].
  apply Forall2_cons in Hcards as [(A4 & R4 & W4 & E4) _].
  assert (∀ c out, is_asset c → out ∈ outputs → resource c ≠ out) as Hne
    by apply is_asset_ne.
  apply Forall_cons in Hwr as [Hwf Hwr].
  apply Forall_cons in Hwr as [Hwt Hwr].
  apply Forall_cons in Hwr as [Hwv _].
  pose proof (existsSync_ensureOutput w) as Hex.
  rewrite <- (readImage_ensureOutput w) in R0, R1, R2, R3, R4.
  revert Hex R0 R1 R2 R3 R4 Hwf Hwt Hwv.
  rewrite (createBoardImage_stage [c0; c1; c2] w).
  generalize (ensureOutput w).1 as w1. generalize (ensureOutput w).2 as made.
  intros made w1 Hex R0 R1 R2 R3 R4 Hwf Hwt Hwv.
  cbn [stage fmap list_fmap combine value final].
  set (F := hconcat3 i0 i1 i2).
  assert (wf_image F ∧ height F = h) as [WF EF].
  { unfold F. rewrite <- sideBySide_hconcat3 by (first [done | simpl; congruence]).
    split; [|done]. apply sideBySide_wf; [|done|simpl; congruence].
    apply sideBySide_wf; [done..|simpl; congruence]. }
  (* the flop *)
  destruct (combineThree_ok (resource c0) (resource c1) (resource c2)
              "./output/flop.jpeg" w1 i0 i1 i2 (sideBySide i0 i1))
    as [Hr1 Ha1];
    [exact R0|exact R1|exact R2|apply Hne; [done|unfold outputs; member]|apply Hcodec
    |lia|simpl; lia|exact Hwf|].
  rewrite sideBySide_hconcat3 in Ha1 by (first [done | simpl; congruence]). fold F in Ha1.
  rewrite Hr1, Ha1.
  set (wA := write_to "./output/flop.jpeg" (Some (encode F)) w1).
  assert (existsSync "./output" wA = true) as HexA
    by by apply existsSync_write_to.
  (* the turn *)
  rewrite (createBoardImage_stage [c0; c1; c2; c3] wA).
  rewrite (ensureOutput_exists wA) by done.
  cbn [stage fmap list_fmap combine value final fst snd].
  assert ("./output/flop.jpeg" ≠ "./output/turn.jpeg") as Hft
    by discriminate.
  assert (readImage wA "./output/flop.jpeg" = Some F) as RF.
  { unfold wA. rewrite readImage_written. apply Hcodec. }
  assert (readImage wA (resource c3) = Some i3) as R3A.
  { unfold wA. rewrite readImage_write_to; [exact R3|].
    apply Hne; [done|unfold outputs; member]. }
  assert (readImage wA (resource c4) = Some i4) as R4A.
  { unfold wA. rewrite readImage_write_to; [exact R4|].
    apply Hne; [done|unfold outputs; member]. }
  destruct (combineTwo_ok ["./output/flop.jpeg"; resource c3]
              "./output/turn.jpeg" wA F i3) as [Hr2 Ha2];
    [exact RF|exact R3A|lia|exact Hwt|].
  rewrite (sideBySide_hconcat F i3) in Ha2 by (first [done | simpl; congruence]).
  rewrite Hr2, Ha2.
  set (T := hconcat F i3) in *.
  set (wB := write_to "./output/turn.jpeg" (Some (encode T)) wA).
  assert (existsSync "./output" wB = true) as HexB
    by by apply existsSync_write_to.
  assert (wf_image T ∧ height T = h) as [WT ET].
  { unfold T. rewrite <- sideBySide_hconcat by (first [done | simpl; congruence]).
    split; [|done]. apply sideBySide_wf; [done..|simpl; congruence]. }
  (* the river *)
  rewrite (createBoardImage_stage [c0; c1; c2; c3; c4] wB).
  rewrite (ensureOutput_exists wB) by done.
  cbn [stage fmap list_fmap combine value final fst snd].
  destruct (combineThree_ok "./output/flop.jpeg" (resource c3) (resource c4)
              "./output/river.jpeg" wB F i3 i4 (sideBySide F i3))
    as [Hr3 Ha3].
  { unfold wB. by rewrite readImage_write_to. }
  { unfold wB. rewrite readImage_write_to; [exact R3A|].
    apply Hne; [done|unfold outputs; member]. }
  { unfold wB. rewrite readImage_write_to; [exact R4A|].
    apply Hne; [done|unfold outputs; member]. }
  { apply Hne; [done|unfold outputs; member]. }
  { apply Hcodec. }
  { lia. }
  { simpl. lia. }
  { exact Hwv. }
  rewrite (sideBySide_hconcat F i3) in Ha3 by (first [done | simpl; congruence]).
  fold T in Ha3.
  rewrite (sideBySide_hconcat T i4) in Ha3 by (first [done | simpl; congruence]).
  rewrite Hr3, Ha3. unfold wB, wA. cbn [write_to files].
  split_and!; [reflexivity..| | |].
  - rewrite !lookup_insert_ne by discriminate. apply lookup_insert_eq.
  - rewrite lookup_insert_ne by discriminate. apply lookup_insert_eq.
  - apply lookup_insert_eq.
Qed.

End Further.

(** * The further properties on the reference environment *)

Lemma combineTwo_outcomes_witness :
  (∃ a b, readImage uneven "mid.jpeg" = Some a
     ∧ readImage uneven "high.jpeg" = Some b ∧ height a < height b)
  ∧ result (combineTwo (E := env) ["mid.jpeg"; "high.jpeg"] "out.jpeg" uneven)
    = Rejected PasteError.
Proof.
  assert (∃ a b, readImage uneven "mid.jpeg" = Some a
            ∧ readImage uneven "high.jpeg" = Some b ∧ height a < height b)
    as Hyp.
  { exists (blank 2 3 (shade 1)), (blank 2 4 (shade 3)).
    split_and!; [vm_compute; reflexivity..|simpl; lia]. }
  split; [exact Hyp|].
  destruct (combineTwo_outcomes (E := env) ["mid.jpeg"; "high.jpeg"]
              "out.jpeg" uneven) as (_ & Hpaste & _).
  apply Hpaste. exact Hyp.
Defined.

Lemma combineTwo_all_or_nothing_witness :
  let s := combineTwo (E := env) ["resources/2h.jpeg"; "resources/9s.jpeg"]
             "nowhere/board.jpeg" fresh in
  result s = Rejected WriteError
  ∧ apart "resources/2h.jpeg" "nowhere/board.jpeg"
  ∧ files (after s) !! "resources/2h.jpeg" = files fresh !! "resources/2h.jpeg".
Proof.
  intros s.
  assert (result s = Rejected WriteError) as Hr by (vm_compute; reflexivity).
  assert (apart "resources/2h.jpeg" "nowhere/board.jpeg") as Hap
    by (vm_compute; discriminate).
  split_and!; [exact Hr|exact Hap|].
  pose proof (combineTwo_all_or_nothing (E := env)
                ["resources/2h.jpeg"; "resources/9s.jpeg"]
                "nowhere/board.jpeg" fresh) as H.
  cbv zeta in H. fold s in H. rewrite Hr in H.
  apply (proj2 H). exact Hap.
Defined.

Lemma shorter_second_padded_witness :
  readImage uneven "mid.jpeg" = Some (blank 2 3 (shade 1))
  ∧ readImage uneven "low.jpeg" = Some (blank 2 2 (shade 2))
  ∧ height (blank 2 2 (shade 2)) ≤ height (blank 2 3 (shade 1))
  ∧ writable (Env := env) (dirs uneven) "out.jpeg" = true
  ∧ result (combineTwo (E := env) ["mid.jpeg"; "low.jpeg"] "out.jpeg" uneven)
    = Resolved "out.jpeg"
  ∧ getPixel (sideBySide (blank 2 3 (shade 1)) (blank 2 2 (shade 2))) 3 2
    = Some white.
Proof.
  destruct (shorter_second_padded (E := env) ["mid.jpeg"; "low.jpeg"]
              "out.jpeg" uneven (blank 2 3 (shade 1)) (blank 2 2 (shade 2)))
    as (Hr & _ & _ & Hwhite);
    [vm_compute; reflexivity|vm_compute; reflexivity|simpl; lia
    |vm_compute; reflexivity|].
  split_and!;
    [vm_compute; reflexivity|vm_compute; reflexivity|simpl; lia
    |vm_compute; reflexivity|exact Hr|].
  apply Hwhite; simpl; lia.
Defined.


Lemma only_stage_path_changes_witness :
  (∀ sources out, stage turn_cards = Some (sources, out) →
     apart "./output/flop.jpeg" out)
  ∧ files (final (createBoardImage (E := env) turn_cards after_flop))
      !! "./output/flop.jpeg"
    = files after_flop !! "./output/flop.jpeg".
Proof.
  assert (∀ sources out, stage turn_cards = Some (sources, out) →
            apart "./output/flop.jpeg" out) as Hyp.
  { intros sources out [= _ <-]. vm_compute. discriminate. }
  split; [exact Hyp|].
  destruct (only_stage_path_changes (E := env) turn_cards after_flop)
    as [_ Hframe].
  apply Hframe. exact Hyp.
Defined.

Lemma output_directory_ensured_witness :
  existsSync "./output" fresh = false
  ∧ head (calls (createBoardImage (E := env) flop_cards fresh))
    = Some (EvMkdir "./output").
Proof.
  assert (existsSync "./output" fresh = false) as Hyp
    by (vm_compute; reflexivity).
  split; [exact Hyp|].
  destruct (output_directory_ensured (E := env) flop_cards fresh)
    as (_ & _ & _ & Hhead).
  apply Hhead. exact Hyp.
Defined.

Lemma unaliased_flop_cards : unaliased flop_cards.
Proof.
  intros sources out Hs. vm_compute in Hs. injection Hs as <- <-.
  repeat constructor; vm_compute; discriminate.
Qed.

Lemma resolved_means_written_witness :
  unaliased flop_cards
  ∧ value (createBoardImage (E := env) flop_cards fresh)
    = Some (Resolved "./output/flop.jpeg")
  ∧ ∃ sources imgs, stage flop_cards = Some (sources, "./output/flop.jpeg")
      ∧ Forall2 (λ p i, readImage fresh p = Some i) sources imgs.
Proof.
  assert (value (createBoardImage (E := env) flop_cards fresh)
          = Some (Resolved "./output/flop.jpeg")) as Hyp
    by (vm_compute; reflexivity).
  split_and!; [exact unaliased_flop_cards|exact Hyp|].
  destruct (resolved_means_written (E := env) flop_cards
              "./output/flop.jpeg" fresh unaliased_flop_cards Hyp)
    as (sources & imgs & Hs & Hread & _).
  exists sources, imgs. split; [exact Hs|exact Hread].
Defined.

Lemma river_skips_turn_witness :
  length river_cards = 5
  ∧ Forall (λ c, apart (resource c) "./output/turn.jpeg")
      (drop 3 river_cards)
  ∧ value (createBoardImage (E := env) river_cards
             (final (createBoardImage (E := env) (take 4 river_cards)
                       after_flop)))
    = value (createBoardImage (E := env) river_cards after_flop).
Proof.
  assert (Forall (λ c, apart (resource c) "./output/turn.jpeg")
            (drop 3 river_cards)) as Hap
    by (repeat constructor; vm_compute; discriminate).
  split_and!; [reflexivity|exact Hap|].
  apply (river_skips_turn (E := env) river_cards after_flop);
    [reflexivity|exact Hap].
Defined.

Lemma is_asset_cards :
  Forall is_asset ["2h"; "9s"; "Kd"; "7c"; "Ah"].
Proof. repeat constructor; vm_compute; discriminate. Qed.

Lemma flop_turn_river_witness :
  Forall is_asset ["2h"; "9s"; "Kd"; "7c"; "Ah"]
  ∧ Forall (λ p, writable (Env := env) (dirs (ensureOutput fresh).1) p = true)
    ["./output/flop.jpeg"; "./output/turn.jpeg"; "./output/river.jpeg"]
  ∧ files (final (createBoardImage (E := env) river_cards
                    (final (createBoardImage (E := env) turn_cards
                              (final (createBoardImage (E := env)
                                        flop_cards fresh))))))
      !! "./output/river.jpeg"
    = Some (hconcat (hconcat (hconcat3 (card 2) (card 9) (card 13)) (card 7))
              (card 14)).
Proof.
  assert (Forall
            (λ p, writable (Env := env) (dirs (ensureOutput fresh).1) p = true)
            ["./output/flop.jpeg"; "./output/turn.jpeg";
             "./output/river.jpeg"]) as Hw.
  { repeat constructor; vm_compute; reflexivity. }
  split_and!; [exact is_asset_cards|exact Hw|].
  pose proof is_asset_cards as Has.
  apply Forall_cons in Has as [A0 Has].
  apply Forall_cons in Has as [A1 Has].
  apply Forall_cons in Has as [A2 Has].
  apply Forall_cons in Has as [A3 Has].
  apply Forall_cons in Has as [A4 _].
  apply (flop_turn_river (E := env) "2h" "9s" "Kd" "7c" "Ah"
           (card 2) (card 9) (card 13) (card 7) (card 14) 3 fresh).
  - repeat (apply Forall2_cons; split; [split_and!|]);
      first [assumption | apply wf_card | exact I | constructor
            | vm_compute; reflexivity].
  - intros i. reflexivity.
  - exact Hw.
Defined.
